(** * FakeNetworkPipe and Stats<T>: a shallow embedding and its properties

    Sources embedded here:
    - [webrtc/video_engine/test/libvietest/testbed/fake_network_pipe.cc]
      (classes [NetworkPacket] and [FakeNetworkPipe]);
    - [trunk/webrtc/modules/remote_bitrate_estimator/test/bwe_test_framework.h]
      (class template [Stats<T>]);
    - [src/common_audio/signal_processing/min_max_operations.c]
      (the value and index scans over word16 and word32 vectors).

    Conventions.
    - [int] and [int64_t] values are integers of [Z].  Signed overflow has no
      defined behaviour in C++, so the additions on time stamps are the
      mathematical ones; [/] on [int] truncates towards zero and is [Z.quot].
    - The counters [dropped_packets_], [sent_packets_] and
      [total_packet_delay_] are declared in [fake_network_pipe.h]; they are
      kept as integers of [Z] and counted without a width.
    - [TickTime::MillisecondTimestamp()] is an external clock; each operation
      that reads it takes the reading as its [time_now] argument.
    - [assert] is checked: a member function whose assertion fails returns
      [None].
    - The critical section serialises the operations; the embedding is the
      sequential behaviour of each operation run under the lock.
    - [float] is IEEE 754 binary32 with rounding to nearest even, through
      the Standard Library's [SpecFloat] at precision 24 and [emax] 128; an
      integer operand of a [float] division is converted to [float] first.
    - A value returned as [int] is narrowed to 32 bits two's complement. *)

From Stdlib Require Import ZArith NArith List Lia Bool Sorted.
From Stdlib Require Import Floats.SpecFloat.
From Stdlib Require Import Init.Byte.
Import ListNotations.

(** ** fake_network_pipe.cc *)

Module fake_network_pipe.

Local Open Scope Z_scope.

(** [const int kNetworkProcessMaxWaitTime = 10;] *)
Definition kNetworkProcessMaxWaitTime : Z := 10.

(** [class NetworkPacket]: the owned copy of the data, its length, the time
    the packet was sent out on the network and the time it should arrive at
    the receiver. *)
Record NetworkPacket : Type := mkNetworkPacket {
  data_ : list byte;
  data_length_ : Z;
  send_time_ : Z;
  arrival_time_ : Z
}.

(** The constructor copies [length] bytes of [data] ([new uint8_t[length]]
    followed by [memcpy]). *)
Definition NetworkPacket_new (data : list byte) (length send_time arrival_time : Z)
  : NetworkPacket :=
  {| data_ := firstn (Z.to_nat length) data;
     data_length_ := length;
     send_time_ := send_time;
     arrival_time_ := arrival_time |}.

(** [void IncrementArrivalTime(int64_t extra_delay)] *)
Definition IncrementArrivalTime (extra_delay : Z) (packet : NetworkPacket)
  : NetworkPacket :=
  {| data_ := data_ packet;
     data_length_ := data_length_ packet;
     send_time_ := send_time_ packet;
     arrival_time_ := arrival_time_ packet + extra_delay |}.

(** [class FakeNetworkPipe].  [packet_receiver_] is the receiver seen from the
    pipe: the list of the [IncomingPacket(data, length)] calls made on it,
    oldest first.  Both [std::queue]s are lists with the front at the head. *)
Record FakeNetworkPipe : Type := mkFakeNetworkPipe {
  packet_receiver_ : list (list byte * Z);
  capacity_link_ : list NetworkPacket;
  delay_link_ : list NetworkPacket;
  queue_length_ : N;
  queue_delay_ms_ : Z;
  link_capacity_bytes_ms_ : Z;
  loss_percent_ : Z;
  dropped_packets_ : Z;
  sent_packets_ : Z;
  total_packet_delay_ : Z
}.

(** The constructor.  [assert(link_capacity_bytes_ms_ > 0)] is the only
    check; a failed assertion aborts, which is [None] here. *)
Definition FakeNetworkPipe_new (queue_length : N)
    (queue_delay_ms link_capacity_kbps loss_percent : Z)
  : option FakeNetworkPipe :=
  let pipe :=
    {| packet_receiver_ := [];
       capacity_link_ := [];
       delay_link_ := [];
       queue_length_ := queue_length;
       queue_delay_ms_ := queue_delay_ms;
       link_capacity_bytes_ms_ := Z.quot link_capacity_kbps 8;
       loss_percent_ := loss_percent;
       dropped_packets_ := 0;
       sent_packets_ := 0;
       total_packet_delay_ := 0 |} in
  if link_capacity_bytes_ms_ pipe >? 0 then Some pipe else None.

(** Field updates used by the operations below. *)
Definition set_capacity_link (q : list NetworkPacket) (pipe : FakeNetworkPipe) :=
  {| packet_receiver_ := packet_receiver_ pipe;
     capacity_link_ := q;
     delay_link_ := delay_link_ pipe;
     queue_length_ := queue_length_ pipe;
     queue_delay_ms_ := queue_delay_ms_ pipe;
     link_capacity_bytes_ms_ := link_capacity_bytes_ms_ pipe;
     loss_percent_ := loss_percent_ pipe;
     dropped_packets_ := dropped_packets_ pipe;
     sent_packets_ := sent_packets_ pipe;
     total_packet_delay_ := total_packet_delay_ pipe |}.

Definition set_delay_link (q : list NetworkPacket) (pipe : FakeNetworkPipe) :=
  {| packet_receiver_ := packet_receiver_ pipe;
     capacity_link_ := capacity_link_ pipe;
     delay_link_ := q;
     queue_length_ := queue_length_ pipe;
     queue_delay_ms_ := queue_delay_ms_ pipe;
     link_capacity_bytes_ms_ := link_capacity_bytes_ms_ pipe;
     loss_percent_ := loss_percent_ pipe;
     dropped_packets_ := dropped_packets_ pipe;
     sent_packets_ := sent_packets_ pipe;
     total_packet_delay_ := total_packet_delay_ pipe |}.

Definition incr_dropped_packets (pipe : FakeNetworkPipe) :=
  {| packet_receiver_ := packet_receiver_ pipe;
     capacity_link_ := capacity_link_ pipe;
     delay_link_ := delay_link_ pipe;
     queue_length_ := queue_length_ pipe;
     queue_delay_ms_ := queue_delay_ms_ pipe;
     link_capacity_bytes_ms_ := link_capacity_bytes_ms_ pipe;
     loss_percent_ := loss_percent_ pipe;
     dropped_packets_ := dropped_packets_ pipe + 1;
     sent_packets_ := sent_packets_ pipe;
     total_packet_delay_ := total_packet_delay_ pipe |}.

(** The body of the second loop of [NetworkProcess] after the pop:
    [IncomingPacket], [++sent_packets_], [total_packet_delay_ += ...]. *)
Definition deliver (packet : NetworkPacket) (pipe : FakeNetworkPipe) :=
  {| packet_receiver_ :=
       packet_receiver_ pipe ++ [(data_ packet, data_length_ packet)];
     capacity_link_ := capacity_link_ pipe;
     delay_link_ := delay_link_ pipe;
     queue_length_ := queue_length_ pipe;
     queue_delay_ms_ := queue_delay_ms_ pipe;
     link_capacity_bytes_ms_ := link_capacity_bytes_ms_ pipe;
     loss_percent_ := loss_percent_ pipe;
     dropped_packets_ := dropped_packets_ pipe;
     sent_packets_ := sent_packets_ pipe + 1;
     total_packet_delay_ :=
       total_packet_delay_ pipe + (arrival_time_ packet - send_time_ packet) |}.

(** [void FakeNetworkPipe::SendPacket(void* data, int data_length)] *)
Definition SendPacket (time_now : Z) (data : list byte) (data_length : Z)
    (pipe : FakeNetworkPipe) : FakeNetworkPipe :=
  if (queue_length_ pipe <=? N.of_nat (length (capacity_link_ pipe)))%N then
    (* Too many packet on the link, drop this one. *)
    incr_dropped_packets pipe
  else
    (* Delay introduced by the link capacity. *)
    let capacity_delay_ms := Z.quot data_length (link_capacity_bytes_ms_ pipe) in
    let network_start_time :=
      (* capacity_link_.back()->arrival_time() when the queue is not empty *)
      match rev (capacity_link_ pipe) with
      | back :: _ => arrival_time_ back
      | [] => time_now
      end in
    let arrival_time := network_start_time + capacity_delay_ms in
    let packet := NetworkPacket_new data data_length time_now arrival_time in
    set_capacity_link (capacity_link_ pipe ++ [packet]) pipe.

(** [float] values and the two operations on them used here: conversion of
    an integer and division. *)
Definition float : Type := spec_float.

Definition float_of_integer (z : Z) : float := binary_normalize 24 128 z 0 false.

Definition float_div (x y : float) : float := SFdiv 24 128 x y.

(** [0] returned as [float]. *)
Definition float_zero : float := S754_zero false.

(** Conversion to [int] of a returned value. *)
Definition int_of (z : Z) : Z := (z + 2147483648) mod 4294967296 - 2147483648.

(** The values an [int] and an [int64_t] hold. *)
Definition int_range (z : Z) : Prop := -2147483648 <= z <= 2147483647.

Definition int64_range (z : Z) : Prop :=
  -9223372036854775808 <= z <= 9223372036854775807.

(** [float FakeNetworkPipe::PercentageLoss()] *)
Definition PercentageLoss (pipe : FakeNetworkPipe) : float :=
  if sent_packets_ pipe =? 0 then float_zero
  else float_div (float_of_integer (dropped_packets_ pipe))
         (float_of_integer (sent_packets_ pipe + dropped_packets_ pipe)).

(** [int FakeNetworkPipe::AverageDelay()] *)
Definition AverageDelay (pipe : FakeNetworkPipe) : Z :=
  if sent_packets_ pipe =? 0 then 0
  else int_of (Z.quot (total_packet_delay_ pipe) (sent_packets_ pipe)).

(** First loop of [NetworkProcess]: while the capacity link has a front
    packet with [time_now >= arrival_time], pop it, add the extra delay and
    push it on the delay link.  [queue] is what is left of [capacity_link_]. *)
Fixpoint check_capacity_link (time_now : Z) (queue : list NetworkPacket)
    (pipe : FakeNetworkPipe) : FakeNetworkPipe :=
  match queue with
  | [] => set_capacity_link [] pipe
  | packet :: rest =>
      if time_now >=? arrival_time_ packet then
        check_capacity_link time_now rest
          (set_delay_link
             (delay_link_ pipe ++
              [IncrementArrivalTime (queue_delay_ms_ pipe) packet]) pipe)
      else set_capacity_link queue pipe
  end.

(** Second loop of [NetworkProcess]: while the delay link has a front packet
    with [time_now >= arrival_time], pop it and deliver it.  [queue] is what
    is left of [delay_link_]. *)
Fixpoint check_delay_link (time_now : Z) (queue : list NetworkPacket)
    (pipe : FakeNetworkPipe) : FakeNetworkPipe :=
  match queue with
  | [] => set_delay_link [] pipe
  | packet :: rest =>
      if time_now >=? arrival_time_ packet then
        check_delay_link time_now rest (deliver packet pipe)
      else set_delay_link queue pipe
  end.

(** [void FakeNetworkPipe::NetworkProcess()] *)
Definition NetworkProcess (time_now : Z) (pipe : FakeNetworkPipe)
  : FakeNetworkPipe :=
  match capacity_link_ pipe, delay_link_ pipe with
  | [], [] => pipe
  | _, _ =>
      let pipe1 := check_capacity_link time_now (capacity_link_ pipe) pipe in
      check_delay_link time_now (delay_link_ pipe1) pipe1
  end.

(** Calls made on a pipe by its two drivers, each with the clock reading it
    observes. *)
Inductive call : Type :=
| CallSendPacket (time_now : Z) (data : list byte) (data_length : Z)
| CallNetworkProcess (time_now : Z).

Definition call_time (c : call) : Z :=
  match c with
  | CallSendPacket t _ _ => t
  | CallNetworkProcess t => t
  end.

Definition run_call (pipe : FakeNetworkPipe) (c : call) : FakeNetworkPipe :=
  match c with
  | CallSendPacket t data len => SendPacket t data len pipe
  | CallNetworkProcess t => NetworkProcess t pipe
  end.

Definition run_calls (pipe : FakeNetworkPipe) (cs : list call) : FakeNetworkPipe :=
  fold_left run_call cs pipe.

(** A call the code accepts: [SendPacket] allocates and copies [data_length]
    bytes when it enqueues, which has no defined result for a negative
    length; [SendPacket] above gives such a call a result all the same, and
    [call_ok] is the side condition that rules it out. *)
Definition call_ok (c : call) : Prop :=
  match c with
  | CallSendPacket _ _ len => 0 <= len
  | CallNetworkProcess _ => True
  end.

(** The clock never goes back: every reading is at least [t0] and at least
    the reading before it. *)
Fixpoint clock_from (t0 : Z) (cs : list call) : Prop :=
  match cs with
  | [] => True
  | c :: cs' => t0 <= call_time c /\ clock_from (call_time c) cs'
  end.

(** Delivery of a run of packets, front first: what the second loop of
    [NetworkProcess] does to the counters and the receiver. *)
Definition deliver_all (delivered : list NetworkPacket) (pipe : FakeNetworkPipe)
  : FakeNetworkPipe :=
  fold_left (fun s p => deliver p s) delivered pipe.

(** [sent_packets_] counts the calls of [IncomingPacket]. *)
Definition counts_deliveries (pipe : FakeNetworkPipe) : Prop :=
  sent_packets_ pipe = Z.of_nat (length (packet_receiver_ pipe)).

(** The three places a single packet [p] sent into the empty pipe [pipe0]
    can be: on the capacity link, on the delay link, or delivered. *)
Definition single_packet_state (pipe0 : FakeNetworkPipe) (p : NetworkPacket)
    (pipe : FakeNetworkPipe) : Prop :=
  let p' := IncrementArrivalTime (queue_delay_ms_ pipe0) p in
  pipe = set_capacity_link [p] pipe0 \/
  pipe = set_delay_link [p'] pipe0 \/
  pipe = deliver p' pipe0.

Definition is_send (c : call) : Prop :=
  match c with
  | CallSendPacket _ _ _ => True
  | CallNetworkProcess _ => False
  end.

(** Order of two packets by the time they should arrive. *)
Definition arrival_le (p q : NetworkPacket) : Prop :=
  arrival_time_ p <= arrival_time_ q.

(** One call treats both queues as FIFOs.  Either it only pushes at the back
    of the capacity link, at most one packet, and leaves the delay link as it
    is; or it only pops: a front run [moved] leaves the capacity link and
    enters the back of the delay link with the extra delay added, and a front
    run [delivered] leaves the delay link so extended.  In both cases each
    queue afterwards is a suffix of the queue before followed by what was
    appended at its back, so the packets that stay keep their order. *)
Definition fifo_step (pipe pipe' : FakeNetworkPipe) : Prop :=
  (exists pushed,
     (length pushed <= 1)%nat /\
     capacity_link_ pipe' = capacity_link_ pipe ++ pushed /\
     delay_link_ pipe' = delay_link_ pipe) \/
  (exists moved delivered,
     capacity_link_ pipe = moved ++ capacity_link_ pipe' /\
     delay_link_ pipe ++
       map (IncrementArrivalTime (queue_delay_ms_ pipe)) moved
       = delivered ++ delay_link_ pipe').

(** The packets of both queues in the order they entered the pipe, each with
    the arrival time it has or will have on the delay link. *)
Definition in_flight (pipe : FakeNetworkPipe) : list NetworkPacket :=
  delay_link_ pipe ++
  map (IncrementArrivalTime (queue_delay_ms_ pipe)) (capacity_link_ pipe).

(** What holds of a pipe when the clock reads [t]: the link capacity is
    positive, the packets in flight are in arrival order, and whatever sits
    on the delay link left the capacity link no later than [t]. *)
Definition pipe_invariant (t : Z) (pipe : FakeNetworkPipe) : Prop :=
  0 < link_capacity_bytes_ms_ pipe /\
  StronglySorted arrival_le (in_flight pipe) /\
  Forall (fun q => arrival_time_ q <= t + queue_delay_ms_ pipe) (delay_link_ pipe).

(** What the receiver is handed for a packet: [IncomingPacket(data, length)]. *)
Definition payload (p : NetworkPacket) : list byte * Z :=
  (data_ p, data_length_ p).

(** The copies [SendPacket] is asked to carry by a sequence of calls, oldest
    first. *)
Fixpoint sent_payloads (cs : list call) : list (list byte * Z) :=
  match cs with
  | [] => []
  | CallSendPacket _ data len :: cs' =>
      (firstn (Z.to_nat len) data, len) :: sent_payloads cs'
  | CallNetworkProcess _ :: cs' => sent_payloads cs'
  end.

(** Everything the pipe has accepted and not lost, oldest first: what the
    receiver already has, then the delay link, then the capacity link. *)
Definition carried (pipe : FakeNetworkPipe) : list (list byte * Z) :=
  packet_receiver_ pipe ++
  map payload (delay_link_ pipe) ++ map payload (capacity_link_ pipe).

(** [l1] is [l2] with some elements left out. *)
Inductive subsequence {A : Type} : list A -> list A -> Prop :=
| subsequence_nil : subsequence [] []
| subsequence_keep x l1 l2 : subsequence l1 l2 -> subsequence (x :: l1) (x :: l2)
| subsequence_skip x l1 l2 : subsequence l1 l2 -> subsequence l1 (x :: l2).

Definition call_length (c : call) : Z :=
  match c with
  | CallSendPacket _ _ len => len
  | CallNetworkProcess _ => 0
  end.

(** Arrival times on a link of [B] bytes per millisecond that is busy until
    [start], for packets of the given lengths sent one after the other. *)
Fixpoint link_schedule (B start : Z) (lengths : list Z) : list Z :=
  match lengths with
  | [] => []
  | len :: rest =>
      let arrival := start + Z.quot len B in
      arrival :: link_schedule B arrival rest
  end.

(** The link is still busy at every send: each call is made no later than
    [busy_until], the arrival time of the packet queued before it. *)
Fixpoint link_busy (B busy_until : Z) (cs : list call) : Prop :=
  match cs with
  | [] => True
  | c :: cs' =>
      call_time c <= busy_until /\
      link_busy B (busy_until + Z.quot (call_length c) B) cs'
  end.

(** Arrival times when every packet starts at the later of its own send time
    and the arrival time [previous] of the packet before it. *)
Fixpoint serial_schedule (B previous : Z) (cs : list call) : list Z :=
  match cs with
  | [] => []
  | c :: cs' =>
      let arrival := Z.max (call_time c) previous + Z.quot (call_length c) B in
      arrival :: serial_schedule B arrival cs'
  end.

End fake_network_pipe.

(** ** bwe_test_framework.h: [template<typename T> class Stats] *)

Module bwe_test_framework.

(** What [Stats<T>] asks of its sample type [T]: conversion of the literal
    [0] and of a [size_type], the four arithmetic operators and [operator<]
    (through [std::min] and [std::max]). *)
Class Sample (T : Type) : Type := {
  zero : T;
  of_size : nat -> T;
  plus : T -> T -> T;
  minus : T -> T -> T;
  times : T -> T -> T;
  divide : T -> T -> T;
  less : T -> T -> bool
}.

(** [std::min(a, b)] is [(b < a) ? b : a]; [std::max(a, b)] is
    [(a < b) ? b : a]. *)
Definition std_min {T} `{Sample T} (a b : T) : T := if less b a then b else a.
Definition std_max {T} `{Sample T} (a b : T) : T := if less a b then b else a.

(** [std::accumulate(first, last, init)] *)
Definition accumulate {T} `{Sample T} (data : list T) (init : T) : T :=
  fold_left plus data init.

(** [int] samples: [/] truncates. *)
#[export] Instance Sample_int : Sample Z := {|
  zero := 0%Z;
  of_size := Z.of_nat;
  plus := Z.add;
  minus := Z.sub;
  times := Z.mul;
  divide := Z.quot;
  less := Z.ltb
|}.

(** The object: the samples, oldest first, the three staleness markers and
    the four cached values.  [size_type] values are sizes of [data_] and are
    natural numbers. *)
Record Stats (T : Type) : Type := mkStats {
  data_ : list T;
  last_mean_count_ : nat;
  last_variance_count_ : nat;
  last_minmax_count_ : nat;
  mean_ : T;
  variance_ : T;
  min_ : T;
  max_ : T
}.
Arguments mkStats {T}.
Arguments data_ {T}.
Arguments last_mean_count_ {T}.
Arguments last_variance_count_ {T}.
Arguments last_minmax_count_ {T}.
Arguments mean_ {T}.
Arguments variance_ {T}.
Arguments min_ {T}.
Arguments max_ {T}.

(** A member function returning [A]: it runs on the object, and either
    aborts on a failed [assert] ([None]) or returns its result with the
    object as it leaves it. *)
Definition method (T A : Type) : Type := Stats T -> option (A * Stats T).

Definition ret {T A} (a : A) : method T A := fun s => Some (a, s).

Definition bind {T A B} (m : method T A) (k : A -> method T B) : method T B :=
  fun s => match m s with
           | Some (a, s') => k a s'
           | None => None
           end.

Definition gets {T A} (f : Stats T -> A) : method T A := fun s => Some (f s, s).

Definition modify {T} (f : Stats T -> Stats T) : method T unit :=
  fun s => Some (tt, f s).

Definition assertion {T} (b : bool) : method T unit :=
  fun s => if b then Some (tt, s) else None.

Definition when {T} (b : bool) (m : method T unit) : method T unit :=
  if b then m else ret tt.

Declare Scope method_scope.
Delimit Scope method_scope with method.
Notation "x <- m ;; k" := (bind m (fun x => k))
  (at level 61, m at next level, right associativity) : method_scope.
Notation "m ;; k" := (bind m (fun _ => k))
  (at level 61, right associativity) : method_scope.
Local Open Scope method_scope.

Section Stats.

Context {T : Type} `{Sample T}.

(** Assignments to the members. *)
Definition set_data (v : list T) (s : Stats T) : Stats T :=
  mkStats v (last_mean_count_ s) (last_variance_count_ s)
    (last_minmax_count_ s) (mean_ s) (variance_ s) (min_ s) (max_ s).
Definition set_last_mean_count (v : nat) (s : Stats T) : Stats T :=
  mkStats (data_ s) v (last_variance_count_ s)
    (last_minmax_count_ s) (mean_ s) (variance_ s) (min_ s) (max_ s).
Definition set_last_variance_count (v : nat) (s : Stats T) : Stats T :=
  mkStats (data_ s) (last_mean_count_ s) v
    (last_minmax_count_ s) (mean_ s) (variance_ s) (min_ s) (max_ s).
Definition set_last_minmax_count (v : nat) (s : Stats T) : Stats T :=
  mkStats (data_ s) (last_mean_count_ s) (last_variance_count_ s)
    v (mean_ s) (variance_ s) (min_ s) (max_ s).
Definition set_mean (v : T) (s : Stats T) : Stats T :=
  mkStats (data_ s) (last_mean_count_ s) (last_variance_count_ s)
    (last_minmax_count_ s) v (variance_ s) (min_ s) (max_ s).
Definition set_variance (v : T) (s : Stats T) : Stats T :=
  mkStats (data_ s) (last_mean_count_ s) (last_variance_count_ s)
    (last_minmax_count_ s) (mean_ s) v (min_ s) (max_ s).
Definition set_min (v : T) (s : Stats T) : Stats T :=
  mkStats (data_ s) (last_mean_count_ s) (last_variance_count_ s)
    (last_minmax_count_ s) (mean_ s) (variance_ s) v (max_ s).
Definition set_max (v : T) (s : Stats T) : Stats T :=
  mkStats (data_ s) (last_mean_count_ s) (last_variance_count_ s)
    (last_minmax_count_ s) (mean_ s) (variance_ s) (min_ s) v.

(** [Stats()] *)
Definition Stats_new : Stats T := mkStats [] 0 0 0 zero zero zero zero.

(** [void Push(T data_point)] *)
Definition Push (data_point : T) : method T unit :=
  modify (fun s => set_data (data_ s ++ [data_point]) s).

(** [T GetMean()] *)
Definition GetMean : method T T :=
  size <- gets (fun s => length (data_ s)) ;;
  last <- gets last_mean_count_ ;;
  when (negb (last =? size)%nat)
    (modify (set_last_mean_count size) ;;
     modify (fun s => set_mean (accumulate (data_ s) zero) s) ;;
     count <- gets last_mean_count_ ;;
     assertion (negb (count =? 0)%nat) ;;
     modify (fun s => set_mean (divide (mean_ s) (of_size count)) s)) ;;
  gets mean_.

(** The loop of [GetVariance]: [variance_ += diff * diff] for each sample. *)
Definition sum_squares (mean : T) (data : list T) (init : T) : T :=
  fold_left (fun acc x => plus acc (times (minus x mean) (minus x mean)))
    data init.

(** [T GetVariance()] *)
Definition GetVariance : method T T :=
  size <- gets (fun s => length (data_ s)) ;;
  last <- gets last_variance_count_ ;;
  when (negb (last =? size)%nat)
    (modify (set_last_variance_count size) ;;
     mean <- GetMean ;;
     modify (set_variance zero) ;;
     modify (fun s => set_variance (sum_squares mean (data_ s) (variance_ s)) s) ;;
     count <- gets last_variance_count_ ;;
     assertion (negb (count =? 0)%nat) ;;
     modify (fun s => set_variance (divide (variance_ s) (of_size count)) s)) ;;
  gets variance_.

(** The loop of [RefreshMinMax] over the samples after the first. *)
Fixpoint scan_minmax (rest : list T) (s : Stats T) : Stats T :=
  match rest with
  | [] => s
  | x :: rest' =>
      scan_minmax rest' (set_max (std_max (max_ s) x) (set_min (std_min (min_ s) x) s))
  end.

(** [void RefreshMinMax()] *)
Definition RefreshMinMax : method T unit :=
  size <- gets (fun s => length (data_ s)) ;;
  last <- gets last_minmax_count_ ;;
  when (negb (last =? size)%nat)
    (modify (set_last_minmax_count size) ;;
     modify (fun s => set_min zero (set_max zero s)) ;;
     data <- gets data_ ;;
     match data with
     | [] => ret tt
     | first :: rest =>
         modify (fun s => set_min first (set_max first s)) ;;
         modify (scan_minmax rest)
     end).

(** [T GetMin()] and [T GetMax()] *)
Definition GetMin : method T T := RefreshMinMax ;; gets min_.
Definition GetMax : method T T := RefreshMinMax ;; gets max_.

(** Uses of the object: the four getters, sequences of getter calls (with
    the values they return, in order) and batches of pushes. *)
Inductive getter : Type := CallGetMean | CallGetVariance | CallGetMin | CallGetMax.

Definition run_getter (g : getter) : method T T :=
  match g with
  | CallGetMean => GetMean
  | CallGetVariance => GetVariance
  | CallGetMin => GetMin
  | CallGetMax => GetMax
  end.

Fixpoint run_getters (gs : list getter) : method T (list T) :=
  match gs with
  | [] => ret []
  | g :: gs' => v <- run_getter g ;; vs <- run_getters gs' ;; ret (v :: vs)
  end.

Fixpoint push_all (batch : list T) : method T unit :=
  match batch with
  | [] => ret tt
  | x :: batch' => Push x ;; push_all batch'
  end.

(** What the getters compute from the samples, read off the refreshing
    branches above. *)
Definition mean_of (data : list T) : T :=
  match data with
  | [] => zero
  | _ => divide (accumulate data zero) (of_size (length data))
  end.

Definition variance_of (data : list T) : T :=
  match data with
  | [] => zero
  | _ => divide (sum_squares (mean_of data) data zero) (of_size (length data))
  end.

Definition min_of (data : list T) : T :=
  match data with
  | [] => zero
  | first :: rest => fold_left std_min rest first
  end.

Definition max_of (data : list T) : T :=
  match data with
  | [] => zero
  | first :: rest => fold_left std_max rest first
  end.

Definition value_of (g : getter) (data : list T) : T :=
  match g with
  | CallGetMean => mean_of data
  | CallGetVariance => variance_of data
  | CallGetMin => min_of data
  | CallGetMax => max_of data
  end.

(** The caches agree with the samples they were computed from: each marker
    counts a prefix of [data_] and the cached value is the value of that
    prefix. *)
Definition mean_ok (s : Stats T) : Prop :=
  (last_mean_count_ s <= length (data_ s))%nat /\
  mean_ s = mean_of (firstn (last_mean_count_ s) (data_ s)).

Definition variance_ok (s : Stats T) : Prop :=
  (last_variance_count_ s <= length (data_ s))%nat /\
  variance_ s = variance_of (firstn (last_variance_count_ s) (data_ s)).

Definition minmax_ok (s : Stats T) : Prop :=
  (last_minmax_count_ s <= length (data_ s))%nat /\
  min_ s = min_of (firstn (last_minmax_count_ s) (data_ s)) /\
  max_ s = max_of (firstn (last_minmax_count_ s) (data_ s)).

Definition caches_ok (s : Stats T) : Prop :=
  mean_ok s /\ variance_ok s /\ minmax_ok s.

(** Two batches with getter calls in between, and one batch. *)
Definition two_batches (xs ys : list T) (between after : list getter)
  : method T (list T) :=
  push_all xs ;; _ <- run_getters between ;; push_all ys ;; run_getters after.

Definition one_batch (xs : list T) (after : list getter) : method T (list T) :=
  push_all xs ;; run_getters after.

(** Any use of the object: pushes and getter calls in any order.  A run
    returns the values of its getter calls, in order. *)
Inductive use : Type :=
| UsePush (data_point : T)
| UseGet (g : getter).

Fixpoint run_uses (us : list use) : method T (list T) :=
  match us with
  | [] => ret []
  | UsePush x :: us' => Push x ;; run_uses us'
  | UseGet g :: us' => v <- run_getter g ;; vs <- run_uses us' ;; ret (v :: vs)
  end.

(** The samples a sequence of uses pushes, and what its getter calls should
    return when [seen] was pushed before: each the value of the samples
    pushed before the call. *)
Fixpoint pushed_by (us : list use) : list T :=
  match us with
  | [] => []
  | UsePush x :: us' => x :: pushed_by us'
  | UseGet _ :: us' => pushed_by us'
  end.

Fixpoint values_after (seen : list T) (us : list use) : list T :=
  match us with
  | [] => []
  | UsePush x :: us' => values_after (seen ++ [x]) us'
  | UseGet g :: us' => value_of g seen :: values_after seen us'
  end.

End Stats.

End bwe_test_framework.

(** ** min_max_operations.c *)

Module min_max_operations.

Local Open Scope Z_scope.

(** [for (i = 0; i < length; i++) body]: [n] iterations are left and the
    counter stands at [i]. *)
Fixpoint for_loop {St : Type} (n : nat) (i : Z) (body : Z -> St -> St) (s : St)
  : St :=
  match n with
  | O => s
  | S n' => for_loop n' (i + 1) body (body i s)
  end.

(** [vector[i]].  A read past the end of the array has no defined result in
    C; here it gives 0, and the theorems ask for [length] to be within the
    array. *)
Definition elem (vector : list Z) (i : Z) : Z := nth (Z.to_nat i) vector 0.

(** [(int16_t)x] for an [int] [x]. *)
Definition int16_of_int (x : Z) : Z := (x + 32768) mod 65536 - 32768.

(** The loop bodies, by the comparison they make: [scan_value] keeps the best
    element so far, [scan_index] its index as well.  [read i] is what the
    loop compares at position [i]. *)
Definition scan_value (better : Z -> Z -> bool) (read : Z -> Z) (i best : Z) : Z :=
  if better (read i) best then read i else best.

Definition scan_index (better : Z -> Z -> bool) (read : Z -> Z) (i : Z)
    (st : Z * Z) : Z * Z :=
  if better (read i) (fst st) then (read i, i) else st.

Section Constants.

(** The four macros are defined in [signal_processing_library.h], which is
    not among the sources; they are parameters here. *)
Variables WEBRTC_SPL_WORD16_MAX WEBRTC_SPL_WORD16_MIN : Z.
Variables WEBRTC_SPL_WORD32_MAX WEBRTC_SPL_WORD32_MIN : Z.

(** A [const int16_t*] or [const int32_t*] argument is [None] for [NULL] and
    otherwise the array it points to. *)

(** [int16_t WebRtcSpl_MaxAbsValueW16(const int16_t* vector, int length)] *)
Definition WebRtcSpl_MaxAbsValueW16 (vector : option (list Z)) (length : Z) : Z :=
  match vector with
  | None => -1
  | Some v =>
      if length <=? 0 then -1
      else
        let maximum :=
          for_loop (Z.to_nat length) 0
            (fun i maximum =>
               let absolute := Z.abs (elem v i) in
               if absolute >? maximum then absolute else maximum) 0 in
        (* Guard the case for abs(-32768). *)
        let maximum :=
          if maximum >? WEBRTC_SPL_WORD16_MAX then WEBRTC_SPL_WORD16_MAX
          else maximum in
        int16_of_int maximum
  end.

(** [int16_t WebRtcSpl_MaxValueW16(const int16_t* vector, int length)] *)
Definition WebRtcSpl_MaxValueW16 (vector : option (list Z)) (length : Z) : Z :=
  let maximum := WEBRTC_SPL_WORD16_MIN in
  match vector with
  | None => maximum
  | Some v =>
      if length <=? 0 then maximum
      else
        for_loop (Z.to_nat length) 0
          (fun i maximum => if elem v i >? maximum then elem v i else maximum)
          maximum
  end.

(** [int32_t WebRtcSpl_MaxValueW32(const int32_t* vector, int length)] *)
Definition WebRtcSpl_MaxValueW32 (vector : option (list Z)) (length : Z) : Z :=
  let maximum := WEBRTC_SPL_WORD32_MIN in
  match vector with
  | None => maximum
  | Some v =>
      if length <=? 0 then maximum
      else
        for_loop (Z.to_nat length) 0
          (fun i maximum => if elem v i >? maximum then elem v i else maximum)
          maximum
  end.

(** [int16_t WebRtcSpl_MinValueW16(const int16_t* vector, int length)] *)
Definition WebRtcSpl_MinValueW16 (vector : option (list Z)) (length : Z) : Z :=
  let minimum := WEBRTC_SPL_WORD16_MAX in
  match vector with
  | None => minimum
  | Some v =>
      if length <=? 0 then minimum
      else
        for_loop (Z.to_nat length) 0
          (fun i minimum => if elem v i <? minimum then elem v i else minimum)
          minimum
  end.

(** [int32_t WebRtcSpl_MinValueW32(const int32_t* vector, int length)] *)
Definition WebRtcSpl_MinValueW32 (vector : option (list Z)) (length : Z) : Z :=
  let minimum := WEBRTC_SPL_WORD32_MAX in
  match vector with
  | None => minimum
  | Some v =>
      if length <=? 0 then minimum
      else
        for_loop (Z.to_nat length) 0
          (fun i minimum => if elem v i <? minimum then elem v i else minimum)
          minimum
  end.

(** [int WebRtcSpl_MaxAbsIndexW16(const int16_t* vector, int length)]; the
    loop state is [(maximum, index)]. *)
Definition WebRtcSpl_MaxAbsIndexW16 (vector : option (list Z)) (length : Z) : Z :=
  match vector with
  | None => -1
  | Some v =>
      if length <=? 0 then -1
      else
        snd (for_loop (Z.to_nat length) 0
               (fun i st =>
                  let absolute := Z.abs (elem v i) in
                  if absolute >? fst st then (absolute, i) else st)
               (0, 0))
  end.

(** [int WebRtcSpl_MaxIndexW16(const int16_t* vector, int length)] *)
Definition WebRtcSpl_MaxIndexW16 (vector : option (list Z)) (length : Z) : Z :=
  match vector with
  | None => -1
  | Some v =>
      if length <=? 0 then -1
      else
        snd (for_loop (Z.to_nat length) 0
               (fun i st => if elem v i >? fst st then (elem v i, i) else st)
               (WEBRTC_SPL_WORD16_MIN, 0))
  end.

(** [int WebRtcSpl_MaxIndexW32(const int32_t* vector, int length)] *)
Definition WebRtcSpl_MaxIndexW32 (vector : option (list Z)) (length : Z) : Z :=
  match vector with
  | None => -1
  | Some v =>
      if length <=? 0 then -1
      else
        snd (for_loop (Z.to_nat length) 0
               (fun i st => if elem v i >? fst st then (elem v i, i) else st)
               (WEBRTC_SPL_WORD32_MIN, 0))
  end.

(** [int WebRtcSpl_MinIndexW16(const int16_t* vector, int length)] *)
Definition WebRtcSpl_MinIndexW16 (vector : option (list Z)) (length : Z) : Z :=
  match vector with
  | None => -1
  | Some v =>
      if length <=? 0 then -1
      else
        snd (for_loop (Z.to_nat length) 0
               (fun i st => if elem v i <? fst st then (elem v i, i) else st)
               (WEBRTC_SPL_WORD16_MAX, 0))
  end.

(** [int WebRtcSpl_MinIndexW32(const int32_t* vector, int length)] *)
Definition WebRtcSpl_MinIndexW32 (vector : option (list Z)) (length : Z) : Z :=
  match vector with
  | None => -1
  | Some v =>
      if length <=? 0 then -1
      else
        snd (for_loop (Z.to_nat length) 0
               (fun i st => if elem v i <? fst st then (elem v i, i) else st)
               (WEBRTC_SPL_WORD32_MAX, 0))
  end.

End Constants.

End min_max_operations.

(** * Properties of FakeNetworkPipe *)

Section PipeProperties.

Import fake_network_pipe.
Local Open Scope Z_scope.

(** ** Running sequences of calls *)

Lemma run_calls_app pipe cs1 cs2 :
  run_calls pipe (cs1 ++ cs2) = run_calls (run_calls pipe cs1) cs2.
Proof. unfold run_calls. apply fold_left_app. Qed.

Lemma run_calls_snoc pipe cs c :
  run_calls pipe (cs ++ [c]) = run_call (run_calls pipe cs) c.
Proof. rewrite run_calls_app. reflexivity. Qed.

Lemma constructed_fields K D C l pipe :
  FakeNetworkPipe_new K D C l = Some pipe ->
  pipe = mkFakeNetworkPipe [] [] [] K D (Z.quot C 8) l 0 0 0 /\ 0 < Z.quot C 8.
Proof.
  unfold FakeNetworkPipe_new. cbn.
  destruct (Z.quot C 8 >? 0) eqn:E; [|discriminate].
  intros [= <-]. split; [reflexivity|]. now apply Z.gtb_lt in E.
Qed.

Lemma quot_8_pos C : 0 < Z.quot C 8 <-> 8 <= C.
Proof.
  split.
  - intros Hpos. destruct (Z_lt_le_dec C 8) as [Hlt|]; [exfalso|assumption].
    destruct (Z_lt_le_dec C 0) as [Hneg|Hnn].
    + assert (0 <= Z.quot (- C) 8) as Hq by (apply Z.quot_pos; lia).
      rewrite Z.quot_opp_l in Hq by lia. lia.
    + rewrite Z.quot_small in Hpos; lia.
  - intros HC. apply Z.quot_str_pos. lia.
Qed.

Lemma constructed_iff K D C l :
  (exists pipe, FakeNetworkPipe_new K D C l = Some pipe) <-> 8 <= C.
Proof.
  rewrite <- quot_8_pos. unfold FakeNetworkPipe_new. cbn.
  destruct (Z.quot C 8 >? 0) eqn:E.
  - apply Z.gtb_lt in E. split; eauto.
  - split; [intros [pipe Hp]; discriminate|].
    intros Hpos. apply Z.gtb_lt in Hpos. congruence.
Qed.

(** ** The two loops of NetworkProcess *)

Lemma set_delay_link_twice q q' pipe :
  set_delay_link q (set_delay_link q' pipe) = set_delay_link q pipe.
Proof. reflexivity. Qed.

Lemma set_delay_link_deliver q p pipe :
  set_delay_link q (deliver p pipe) = deliver p (set_delay_link q pipe).
Proof. reflexivity. Qed.

Lemma set_delay_link_deliver_all q q' delivered : forall pipe,
  set_delay_link q (deliver_all delivered (set_delay_link q' pipe)) =
  set_delay_link q (deliver_all delivered pipe).
Proof.
  unfold deliver_all.
  induction delivered as [|p delivered IH]; intros pipe; cbn [fold_left].
  - reflexivity.
  - rewrite <- (IH (deliver p pipe)). reflexivity.
Qed.

Lemma check_capacity_link_spec t queue : forall pipe,
  exists moved rest,
    queue = moved ++ rest /\
    check_capacity_link t queue pipe =
      set_capacity_link rest
        (set_delay_link
           (delay_link_ pipe ++
            map (IncrementArrivalTime (queue_delay_ms_ pipe)) moved) pipe) /\
    Forall (fun p => arrival_time_ p <= t) moved /\
    (forall p rest', rest = p :: rest' -> t < arrival_time_ p).
Proof.
  induction queue as [|p queue IH]; intros pipe.
  - exists [], []. cbn. rewrite app_nil_r.
    repeat split; auto; discriminate.
  - cbn [check_capacity_link].
    destruct (t >=? arrival_time_ p) eqn:E.
    + destruct (IH (set_delay_link
                      (delay_link_ pipe ++
                       [IncrementArrivalTime (queue_delay_ms_ pipe) p]) pipe))
        as (moved & rest & Hq & Hr & Hm & Hhd).
      exists (p :: moved), rest. rewrite Hr. cbn.
      rewrite <- app_assoc. cbn. subst queue.
      repeat split; auto. constructor; auto. apply Z.geb_le in E. lia.
    + exists [], (p :: queue). cbn. rewrite app_nil_r.
      repeat split; auto.
      intros p' rest' [= <- <-]. rewrite Z.geb_leb in E.
      apply Z.leb_gt in E. lia.
Qed.

Lemma check_delay_link_spec t queue : forall pipe,
  exists delivered rest,
    queue = delivered ++ rest /\
    check_delay_link t queue pipe =
      set_delay_link rest (deliver_all delivered pipe) /\
    Forall (fun p => arrival_time_ p <= t) delivered /\
    (forall p rest', rest = p :: rest' -> t < arrival_time_ p).
Proof.
  induction queue as [|p queue IH]; intros pipe.
  - exists [], []. cbn. repeat split; auto; discriminate.
  - cbn [check_delay_link].
    destruct (t >=? arrival_time_ p) eqn:E.
    + destruct (IH (deliver p pipe)) as (delivered & rest & Hq & Hr & Hm & Hhd).
      exists (p :: delivered), rest. rewrite Hr. cbn. subst queue.
      repeat split; auto. constructor; auto. apply Z.geb_le in E. lia.
    + exists [], (p :: queue). cbn.
      repeat split; auto.
      intros p' rest' [= <- <-]. rewrite Z.geb_leb in E.
      apply Z.leb_gt in E. lia.
Qed.

(** What delivering a run of packets leaves in each field. *)
Lemma deliver_all_fields delivered : forall pipe,
  capacity_link_ (deliver_all delivered pipe) = capacity_link_ pipe /\
  delay_link_ (deliver_all delivered pipe) = delay_link_ pipe /\
  queue_length_ (deliver_all delivered pipe) = queue_length_ pipe /\
  queue_delay_ms_ (deliver_all delivered pipe) = queue_delay_ms_ pipe /\
  link_capacity_bytes_ms_ (deliver_all delivered pipe) =
    link_capacity_bytes_ms_ pipe /\
  dropped_packets_ (deliver_all delivered pipe) = dropped_packets_ pipe /\
  sent_packets_ (deliver_all delivered pipe) =
    sent_packets_ pipe + Z.of_nat (length delivered) /\
  packet_receiver_ (deliver_all delivered pipe) =
    packet_receiver_ pipe ++
    map (fun p => (data_ p, data_length_ p)) delivered /\
  total_packet_delay_ (deliver_all delivered pipe) =
    total_packet_delay_ pipe +
    fold_right Z.add 0
      (map (fun p => arrival_time_ p - send_time_ p) delivered).
Proof.
  unfold deliver_all.
  induction delivered as [|p delivered IH]; intros pipe; cbn [fold_left].
  - cbn. rewrite app_nil_r. repeat split; lia.
  - destruct (IH (deliver p pipe)) as (H1 & H2 & H3 & H4 & H5 & H6 & H7 & H8 & H9).
    rewrite H1, H2, H3, H4, H5, H6, H7, H8, H9. cbn [deliver map fold_right length
      capacity_link_ delay_link_ queue_length_ queue_delay_ms_
      link_capacity_bytes_ms_ dropped_packets_ sent_packets_ packet_receiver_
      total_packet_delay_].
    rewrite <- app_assoc. cbn [app].
    repeat split; lia.
Qed.

(** The early return of [NetworkProcess] is what the two loops do on two
    empty queues. *)
Lemma NetworkProcess_loops t pipe :
  NetworkProcess t pipe =
  check_delay_link t
    (delay_link_ (check_capacity_link t (capacity_link_ pipe) pipe))
    (check_capacity_link t (capacity_link_ pipe) pipe).
Proof.
  unfold NetworkProcess.
  destruct pipe as [r [|c cap] [|d del] K D B l dr se tot]; reflexivity.
Qed.

(** [NetworkProcess] as one step: a prefix of the capacity link moves to the
    delay link, then a prefix of the delay link is delivered. *)
Lemma NetworkProcess_spec t pipe :
  exists moved rest delivered waiting,
    capacity_link_ pipe = moved ++ rest /\
    delay_link_ pipe ++
      map (IncrementArrivalTime (queue_delay_ms_ pipe)) moved
      = delivered ++ waiting /\
    NetworkProcess t pipe =
      set_delay_link waiting
        (deliver_all delivered (set_capacity_link rest pipe)) /\
    Forall (fun p => arrival_time_ p <= t) moved /\
    (forall p rest', rest = p :: rest' -> t < arrival_time_ p) /\
    Forall (fun p => arrival_time_ p <= t) delivered /\
    (forall p rest', waiting = p :: rest' -> t < arrival_time_ p).
Proof.
  rewrite NetworkProcess_loops.
  destruct (check_capacity_link_spec t (capacity_link_ pipe) pipe)
    as (moved & rest & Hq & Hr & Hm & Hhd).
  rewrite Hr. cbn [delay_link_ set_capacity_link set_delay_link].
  match goal with
  | |- context [check_delay_link t ?q ?s] =>
      destruct (check_delay_link_spec t q s)
        as (delivered & waiting & Hq' & Hr' & Hm' & Hhd')
  end.
  exists moved, rest, delivered, waiting. rewrite Hr'.
  repeat split; auto.
  change (set_capacity_link rest (set_delay_link ?q pipe))
    with (set_delay_link q (set_capacity_link rest pipe)).
  apply set_delay_link_deliver_all.
Qed.

(** ** SendPacket *)

Lemma SendPacket_full t data len pipe :
  (queue_length_ pipe <= N.of_nat (length (capacity_link_ pipe)))%N ->
  SendPacket t data len pipe = incr_dropped_packets pipe.
Proof.
  intros H. unfold SendPacket. apply N.leb_le in H. now rewrite H.
Qed.

Lemma SendPacket_room t data len pipe :
  (N.of_nat (length (capacity_link_ pipe)) < queue_length_ pipe)%N ->
  SendPacket t data len pipe =
  set_capacity_link
    (capacity_link_ pipe ++
     [NetworkPacket_new data len t
        (match rev (capacity_link_ pipe) with
         | back :: _ => arrival_time_ back
         | [] => t
         end + Z.quot len (link_capacity_bytes_ms_ pipe))]) pipe.
Proof.
  intros H. unfold SendPacket. apply N.leb_gt in H. now rewrite H.
Qed.

(** [SendPacket] never touches the delivery side. *)
Lemma SendPacket_delivery_side t data len pipe :
  delay_link_ (SendPacket t data len pipe) = delay_link_ pipe /\
  sent_packets_ (SendPacket t data len pipe) = sent_packets_ pipe /\
  total_packet_delay_ (SendPacket t data len pipe) = total_packet_delay_ pipe /\
  packet_receiver_ (SendPacket t data len pipe) = packet_receiver_ pipe /\
  queue_length_ (SendPacket t data len pipe) = queue_length_ pipe /\
  queue_delay_ms_ (SendPacket t data len pipe) = queue_delay_ms_ pipe /\
  link_capacity_bytes_ms_ (SendPacket t data len pipe) =
    link_capacity_bytes_ms_ pipe.
Proof.
  unfold SendPacket.
  destruct (queue_length_ pipe <=? N.of_nat (length (capacity_link_ pipe)))%N;
    cbn; repeat split; reflexivity.
Qed.

(** ** Counters and the receiver *)

Lemma run_call_counts_deliveries pipe c :
  counts_deliveries pipe -> counts_deliveries (run_call pipe c).
Proof.
  unfold counts_deliveries. intros H. destruct c as [t data len|t]; cbn.
  - destruct (SendPacket_delivery_side t data len pipe)
      as (_ & -> & _ & -> & _). exact H.
  - destruct (NetworkProcess_spec t pipe)
      as (moved & rest & delivered & waiting & _ & _ & -> & _).
    cbn [sent_packets_ packet_receiver_ set_delay_link].
    destruct (deliver_all_fields delivered (set_capacity_link rest pipe))
      as (_ & _ & _ & _ & _ & _ & -> & -> & _).
    cbn [sent_packets_ packet_receiver_ set_capacity_link].
    rewrite length_app, length_map. lia.
Qed.

Lemma run_calls_counts_deliveries cs : forall pipe,
  counts_deliveries pipe -> counts_deliveries (run_calls pipe cs).
Proof.
  induction cs as [|c cs IH]; intros pipe H; cbn.
  - exact H.
  - apply IH, run_call_counts_deliveries, H.
Qed.

(** C8 (as stated) fails: 7 kbps is a positive capacity, and the
    construction-time assertion rejects it. *)
Lemma C8_positive_capacity_rejected :
  0 < 7 /\ FakeNetworkPipe_new 2 0 7 0 = None.
Proof. split; reflexivity. Qed.

(** C8 (amended): the construction-time assertion fails for every
    [link_capacity_kbps] below 8, the non-positive ones among them, and holds
    for every [link_capacity_kbps] of at least 8; the pipe then has
    [link_capacity_kbps / 8 > 0] bytes per millisecond. *)
Theorem C8_constructor_assertion (K : N) (D C l : Z) :
  (FakeNetworkPipe_new K D C l = None <-> C < 8) /\
  ((exists pipe, FakeNetworkPipe_new K D C l = Some pipe /\
                 link_capacity_bytes_ms_ pipe = C / 8 /\
                 0 < link_capacity_bytes_ms_ pipe) <-> 8 <= C).
Proof.
  pose proof (constructed_iff K D C l) as Hiff.
  split; split.
  - intros HN. destruct (Z_lt_le_dec C 8) as [|Hge]; [assumption|].
    apply Hiff in Hge. destruct Hge as [pipe Hp]. congruence.
  - intros Hlt. destruct (FakeNetworkPipe_new K D C l) as [pipe|] eqn:E;
      [|reflexivity].
    assert (8 <= C) by (apply Hiff; eauto). lia.
  - intros (pipe & Hp & _). apply Hiff. eauto.
  - intros Hge. destruct (proj2 Hiff Hge) as [pipe Hp]. exists pipe.
    destruct (constructed_fields _ _ _ _ _ Hp) as [-> Hpos]. cbn.
    repeat split; auto. apply Z.quot_div_nonneg; lia.
Qed.

(** C7: a [SendPacket] call made while the capacity queue holds at least
    [queue_length_] packets adds one to the drop counter and changes nothing
    else: both queues, the sent counter, the delay total, the receiver and the
    configuration are as before, and the call returns normally. *)
Theorem C7_SendPacket_overflow (t : Z) (data : list byte) (len : Z)
    (pipe : FakeNetworkPipe) :
  (queue_length_ pipe <= N.of_nat (length (capacity_link_ pipe)))%N ->
  let pipe' := SendPacket t data len pipe in
  dropped_packets_ pipe' = dropped_packets_ pipe + 1 /\
  capacity_link_ pipe' = capacity_link_ pipe /\
  delay_link_ pipe' = delay_link_ pipe /\
  sent_packets_ pipe' = sent_packets_ pipe /\
  total_packet_delay_ pipe' = total_packet_delay_ pipe /\
  packet_receiver_ pipe' = packet_receiver_ pipe /\
  queue_length_ pipe' = queue_length_ pipe /\
  queue_delay_ms_ pipe' = queue_delay_ms_ pipe /\
  link_capacity_bytes_ms_ pipe' = link_capacity_bytes_ms_ pipe /\
  loss_percent_ pipe' = loss_percent_ pipe.
Proof.
  intros H pipe'. subst pipe'. rewrite (SendPacket_full _ _ _ _ H).
  cbn. repeat split; reflexivity.
Qed.

(** Queue bound 1 with one packet queued: the next send is counted as a drop
    and the queue keeps its single packet. *)
Lemma C7_SendPacket_overflow_witness :
  exists pipe0,
    FakeNetworkPipe_new 1 0 80 0 = Some pipe0 /\
    let data := repeat x00 100 in
    let pipe := SendPacket 0 data 100 pipe0 in
    dropped_packets_ (SendPacket 1 data 100 pipe) = 1 /\
    capacity_link_ (SendPacket 1 data 100 pipe) = capacity_link_ pipe.
Proof.
  eexists. split; [reflexivity|]. intros data pipe.
  destruct (C7_SendPacket_overflow 1 data 100 pipe) as (Hd & Hc & _).
  - cbn. lia.
  - split; [exact Hd | exact Hc].
Defined.

(** C6: in every state a constructed pipe reaches through calls the code
    accepts, [PercentageLoss()] is
    [dropped / (sent + dropped)], the [float] division of the two counters'
    values, once the receiver has been handed a packet, and is 0 while
    [sent_packets_] is 0, whatever the drop counter says. *)
Theorem C6_PercentageLoss (K : N) (D C l : Z) (pipe0 : FakeNetworkPipe)
    (cs : list call) :
  FakeNetworkPipe_new K D C l = Some pipe0 ->
  Forall call_ok cs ->
  let pipe := run_calls pipe0 cs in
  (packet_receiver_ pipe <> [] ->
   PercentageLoss pipe =
   float_div (float_of_integer (dropped_packets_ pipe))
     (float_of_integer (sent_packets_ pipe + dropped_packets_ pipe))) /\
  (sent_packets_ pipe = 0 -> PercentageLoss pipe = float_zero).
Proof.
  intros Hnew _ pipe.
  assert (counts_deliveries pipe) as Hc.
  { apply run_calls_counts_deliveries.
    destruct (constructed_fields _ _ _ _ _ Hnew) as [-> _]. reflexivity. }
  unfold counts_deliveries in Hc. unfold PercentageLoss. split.
  - intros Hrecv.
    destruct (packet_receiver_ pipe) as [|r rs] eqn:E; [congruence|].
    cbn [length] in Hc.
    destruct (sent_packets_ pipe =? 0) eqn:E0.
    + apply Z.eqb_eq in E0. lia.
    + reflexivity.
  - intros ->. reflexivity.
Qed.

(** Queue bound 1, two sends at time 0 and a [NetworkProcess] at time 10: one
    packet delivered, one dropped, and a loss of 0.5f. *)
Lemma C6_PercentageLoss_witness :
  exists pipe0,
    FakeNetworkPipe_new 1 0 80 0 = Some pipe0 /\
    let data := repeat x00 100 in
    let pipe := run_calls pipe0
                  [CallSendPacket 0 data 100; CallSendPacket 0 data 100;
                   CallNetworkProcess 10] in
    PercentageLoss pipe = S754_finite false 8388608 (-24).
Proof.
  eexists. split; [reflexivity|]. intros data pipe.
  destruct (C6_PercentageLoss 1 0 80 0 _
              [CallSendPacket 0 data 100; CallSendPacket 0 data 100;
               CallNetworkProcess 10] eq_refl) as [Hloss _].
  - repeat constructor; cbn; lia.
  - fold pipe in Hloss. rewrite Hloss.
    + reflexivity.
    + discriminate.
Defined.

(** ** Arrival order of the packets in flight *)

Lemma StronglySorted_app_iff {A} (R : A -> A -> Prop) (l1 l2 : list A) :
  StronglySorted R (l1 ++ l2) <->
  StronglySorted R l1 /\ StronglySorted R l2 /\
  Forall (fun x => Forall (R x) l2) l1.
Proof.
  induction l1 as [|a l1 IH]; cbn.
  - split; [intros H; repeat split; auto; constructor | tauto].
  - split.
    + intros H. apply StronglySorted_inv in H. destruct H as [Hs Ha].
      apply IH in Hs. destruct Hs as (H1 & H2 & H12).
      apply Forall_app in Ha. destruct Ha as [Ha1 Ha2].
      repeat split; auto; constructor; auto.
    + intros (H1 & H2 & H12).
      apply StronglySorted_inv in H1. destruct H1 as [H1 Ha].
      apply Forall_cons_iff in H12. destruct H12 as [Ha2 H12].
      constructor.
      * apply IH. auto.
      * apply Forall_app. auto.
Qed.

Lemma arrival_le_trans p q r : arrival_le p q -> arrival_le q r -> arrival_le p r.
Proof. unfold arrival_le. lia. Qed.

(** In a sorted run that ends with [back], nothing arrives after [back]. *)
Lemma sorted_before_back (l : list NetworkPacket) (back x : NetworkPacket) :
  StronglySorted arrival_le (l ++ [back]) -> In x (l ++ [back]) ->
  arrival_le x back.
Proof.
  intros Hs Hin. apply StronglySorted_app_iff in Hs.
  destruct Hs as (_ & _ & Hall). apply in_app_or in Hin.
  destruct Hin as [Hin|[<-|[]]].
  - rewrite Forall_forall in Hall. specialize (Hall _ Hin).
    now apply Forall_inv in Hall.
  - unfold arrival_le. lia.
Qed.

Lemma StronglySorted_delayed D (l : list NetworkPacket) :
  StronglySorted arrival_le (map (IncrementArrivalTime D) l) ->
  StronglySorted arrival_le l.
Proof.
  induction l as [|p l IH]; cbn; intros H.
  - constructor.
  - apply StronglySorted_inv in H. destruct H as [Hs Ha]. constructor.
    + auto.
    + rewrite Forall_map in Ha. revert Ha. apply Forall_impl.
      intros q. unfold arrival_le. cbn. lia.
Qed.

Lemma constructed_invariant K D C l pipe t :
  FakeNetworkPipe_new K D C l = Some pipe -> pipe_invariant t pipe.
Proof.
  intros H. destruct (constructed_fields _ _ _ _ _ H) as [-> Hpos].
  repeat split; cbn; auto; constructor.
Qed.

Lemma SendPacket_invariant t0 t data len pipe :
  pipe_invariant t0 pipe -> t0 <= t -> 0 <= len ->
  pipe_invariant t (SendPacket t data len pipe).
Proof.
  intros (Hpos & Hsorted & Hdelay) Ht Hlen.
  assert (Forall (fun q => arrival_time_ q <= t + queue_delay_ms_ pipe)
            (delay_link_ pipe)) as Hdelay'.
  { revert Hdelay. apply Forall_impl. intros q. lia. }
  destruct (N.le_gt_cases (queue_length_ pipe)
              (N.of_nat (length (capacity_link_ pipe)))) as [Hfull|Hroom].
  - rewrite SendPacket_full by assumption. repeat split; assumption.
  - rewrite SendPacket_room by assumption.
    assert (0 <= Z.quot len (link_capacity_bytes_ms_ pipe)) as Hq
      by (apply Z.quot_pos; lia).
    repeat split; try assumption.
    unfold in_flight in *.
    cbn [delay_link_ capacity_link_ queue_delay_ms_ set_capacity_link].
    rewrite map_app, app_assoc. cbn [map].
    apply StronglySorted_app_iff. repeat split.
    + assumption.
    + repeat constructor.
    + apply Forall_forall. intros x Hx. constructor; [|constructor].
      unfold arrival_le. cbn.
      destruct (rev (capacity_link_ pipe)) as [|back r] eqn:Erev.
      * apply (f_equal (@rev _)) in Erev. rewrite rev_involutive in Erev.
        rewrite Erev in Hx. cbn in Hx. rewrite app_nil_r in Hx.
        rewrite Forall_forall in Hdelay'. specialize (Hdelay' _ Hx). lia.
      * apply (f_equal (@rev _)) in Erev. rewrite rev_involutive in Erev.
        cbn in Erev. rewrite Erev, map_app, app_assoc in Hsorted, Hx.
        cbn [map] in Hsorted, Hx.
        pose proof (sorted_before_back _ _ _ Hsorted Hx) as Hle.
        unfold arrival_le in Hle. cbn in Hle. lia.
Qed.

Lemma NetworkProcess_invariant t0 t pipe :
  pipe_invariant t0 pipe -> t0 <= t -> pipe_invariant t (NetworkProcess t pipe).
Proof.
  intros (Hpos & Hsorted & Hdelay) Ht.
  destruct (NetworkProcess_spec t pipe)
    as (moved & rest & delivered & waiting & Hcap & Hdel & -> & Hm & _).
  destruct (deliver_all_fields delivered (set_capacity_link rest pipe))
    as (Fc & _ & _ & FD & FB & _).
  unfold pipe_invariant, in_flight in *.
  cbn [delay_link_ capacity_link_ queue_delay_ms_ link_capacity_bytes_ms_
       set_delay_link].
  rewrite Fc, FD, FB. cbn [capacity_link_ queue_delay_ms_
    link_capacity_bytes_ms_ set_capacity_link].
  rewrite Hcap, map_app, app_assoc, Hdel, <- app_assoc in Hsorted.
  apply StronglySorted_app_iff in Hsorted. destruct Hsorted as (_ & Hs & _).
  repeat split; try assumption.
  assert (Forall (fun q => arrival_time_ q <= t + queue_delay_ms_ pipe)
            (delivered ++ waiting)) as Hall.
  { rewrite <- Hdel. apply Forall_app. split.
    - revert Hdelay. apply Forall_impl. intros q. lia.
    - rewrite Forall_map. revert Hm. apply Forall_impl. intros q. cbn. lia. }
  apply Forall_app in Hall. tauto.
Qed.

Lemma run_calls_invariant cs : forall t0 pipe,
  pipe_invariant t0 pipe -> Forall call_ok cs -> clock_from t0 cs ->
  exists t, pipe_invariant t (run_calls pipe cs).
Proof.
  induction cs as [|c cs IH]; intros t0 pipe Hinv Hok Hclock.
  - exists t0. exact Hinv.
  - cbn in Hclock. destruct Hclock as [Ht Hclock].
    apply Forall_cons_iff in Hok. destruct Hok as [Hc Hok].
    cbn [run_calls fold_left]. apply (IH (call_time c)); try assumption.
    destruct c as [t data len|t]; cbn in *.
    + now apply (SendPacket_invariant t0).
    + now apply (NetworkProcess_invariant t0).
Qed.

Lemma run_call_fifo pipe c : fifo_step pipe (run_call pipe c).
Proof.
  unfold fifo_step. destruct c as [t data len|t]; cbn [run_call].
  - left.
    destruct (N.le_gt_cases (queue_length_ pipe)
                (N.of_nat (length (capacity_link_ pipe)))) as [Hfull|Hroom].
    + rewrite SendPacket_full by assumption.
      exists []. cbn. rewrite app_nil_r. auto.
    + rewrite SendPacket_room by assumption.
      eexists [_]. cbn. auto.
  - right.
    destruct (NetworkProcess_spec t pipe)
      as (moved & rest & delivered & waiting & Hcap & Hdel & -> & _).
    destruct (deliver_all_fields delivered (set_capacity_link rest pipe))
      as (Fc & _).
    exists moved, delivered.
    cbn [delay_link_ capacity_link_ set_delay_link]. rewrite Fc. cbn. auto.
Qed.

(** A step that swaps two packets of the capacity queue is no [fifo_step],
    whatever it does to the delay queue. *)
Lemma fifo_step_keeps_order (p q : NetworkPacket) (pipe pipe' : FakeNetworkPipe) :
  p <> q ->
  capacity_link_ pipe = [p; q] -> capacity_link_ pipe' = [q; p] ->
  ~ fifo_step pipe pipe'.
Proof.
  intros Hpq Hcap Hcap' [(pushed & _ & Hpush & _)|(moved & delivered & Hpop & _)].
  - rewrite Hcap, Hcap' in Hpush. cbn in Hpush. congruence.
  - rewrite Hcap, Hcap' in Hpop.
    assert (length moved = 0)%nat as Hlen.
    { apply (f_equal (@length _)) in Hpop. rewrite length_app in Hpop.
      cbn in Hpop. lia. }
    destruct moved; [|discriminate]. cbn in Hpop. congruence.
Qed.

(** C5: in every state a constructed pipe reaches through [SendPacket] and
    [NetworkProcess] calls whose clock readings never decrease, the capacity
    queue and the delay queue are each non-decreasing in [arrival_time].
    The order comes from FIFO construction alone: both queues start empty,
    and every call made on the way, like every further call, either pushes
    at most one packet at the back of the capacity queue or pops front runs
    (capacity queue to the back of the delay queue, delay queue to the
    receiver); no call changes the relative order of the packets that stay
    in a queue. *)
Theorem C5_queues_in_arrival_order (K : N) (D C l : Z)
    (pipe0 : FakeNetworkPipe) (t0 : Z) (cs : list call) :
  FakeNetworkPipe_new K D C l = Some pipe0 ->
  Forall call_ok cs ->
  clock_from t0 cs ->
  let pipe := run_calls pipe0 cs in
  Sorted arrival_le (capacity_link_ pipe) /\
  Sorted arrival_le (delay_link_ pipe) /\
  (forall c, fifo_step pipe (run_call pipe c)) /\
  capacity_link_ pipe0 = [] /\ delay_link_ pipe0 = [] /\
  (forall cs1 c cs2,
     cs = cs1 ++ c :: cs2 ->
     fifo_step (run_calls pipe0 cs1) (run_calls pipe0 (cs1 ++ [c]))).
Proof.
  intros Hnew Hok Hclock pipe.
  destruct (run_calls_invariant cs t0 pipe0
              (constructed_invariant _ _ _ _ _ t0 Hnew) Hok Hclock)
    as (t & _ & Hsorted & _).
  fold pipe in Hsorted. unfold in_flight in Hsorted.
  apply StronglySorted_app_iff in Hsorted. destruct Hsorted as (Hd & Hc & _).
  apply StronglySorted_delayed in Hc.
  destruct (constructed_fields _ _ _ _ _ Hnew) as [Hp0 _].
  split; [|split; [|split; [|split; [|split]]]].
  - now apply StronglySorted_Sorted.
  - now apply StronglySorted_Sorted.
  - intros c. apply run_call_fifo.
  - rewrite Hp0. reflexivity.
  - rewrite Hp0. reflexivity.
  - intros cs1 c cs2 _. rewrite run_calls_snoc. apply run_call_fifo.
Qed.

(** Queue bound 3 and 100 ms of queue delay: sends at 0, 1 and 2, a
    [NetworkProcess] at 25 that moves two packets to the delay queue, and a
    send at 26.  Both queues then hold two packets each, in arrival order. *)
Lemma C5_queues_in_arrival_order_witness :
  exists pipe0,
    FakeNetworkPipe_new 3 100 80 0 = Some pipe0 /\
    let data := repeat x00 100 in
    let pipe := run_calls pipe0
                  [CallSendPacket 0 data 100; CallSendPacket 1 data 100;
                   CallSendPacket 2 data 100; CallNetworkProcess 25;
                   CallSendPacket 26 data 100] in
    map arrival_time_ (capacity_link_ pipe) = [30; 40] /\
    map arrival_time_ (delay_link_ pipe) = [110; 120] /\
    Sorted arrival_le (capacity_link_ pipe) /\
    Sorted arrival_le (delay_link_ pipe).
Proof.
  eexists. split; [reflexivity|]. intros data pipe.
  split; [reflexivity|]. split; [reflexivity|].
  destruct (C5_queues_in_arrival_order 3 100 80 0 _ 0
              [CallSendPacket 0 data 100; CallSendPacket 1 data 100;
               CallSendPacket 2 data 100; CallNetworkProcess 25;
               CallSendPacket 26 data 100] eq_refl) as (Hc & Hd & _).
  - repeat constructor; cbn; lia.
  - cbn. lia.
  - split; [exact Hc | exact Hd].
Defined.

(** ** A late NetworkProcess empties the pipe *)

Lemma NetworkProcess_late t pipe :
  Forall (fun p => arrival_time_ p <= t /\
                   arrival_time_ p + queue_delay_ms_ pipe <= t)
    (capacity_link_ pipe) ->
  Forall (fun q => arrival_time_ q <= t) (delay_link_ pipe) ->
  NetworkProcess t pipe =
  set_delay_link []
    (deliver_all
       (delay_link_ pipe ++
        map (IncrementArrivalTime (queue_delay_ms_ pipe)) (capacity_link_ pipe))
       (set_capacity_link [] pipe)).
Proof.
  intros Hcap Hdel.
  destruct (NetworkProcess_spec t pipe)
    as (moved & rest & delivered & waiting & Hc & Hd & -> & _ & Hrest & _ & Hwait).
  assert (rest = []) as ->.
  { destruct rest as [|p rest']; [reflexivity|].
    specialize (Hrest p rest' eq_refl).
    rewrite Hc in Hcap. apply Forall_app in Hcap. destruct Hcap as [_ Hcap].
    apply Forall_inv in Hcap. lia. }
  rewrite app_nil_r in Hc. subst moved.
  assert (waiting = []) as ->.
  { destruct waiting as [|q waiting']; [reflexivity|].
    specialize (Hwait q waiting' eq_refl).
    assert (Forall (fun q => arrival_time_ q <= t) (delivered ++ q :: waiting'))
      as Hall.
    { rewrite <- Hd. apply Forall_app. split; [assumption|].
      rewrite Forall_map. revert Hcap. apply Forall_impl. intros p. cbn. lia. }
    apply Forall_app in Hall. destruct Hall as [_ Hall].
    apply Forall_inv in Hall. lia. }
  rewrite app_nil_r in Hd. now rewrite Hd.
Qed.

(** ** Back-to-back sends *)

Lemma sends_fill_then_drop cs : forall pipe,
  Forall is_send cs ->
  (length (capacity_link_ pipe) <= N.to_nat (queue_length_ pipe))%nat ->
  let pipe' := run_calls pipe cs in
  let total := (length (capacity_link_ pipe) + length cs)%nat in
  length (capacity_link_ pipe') = Nat.min (N.to_nat (queue_length_ pipe)) total /\
  dropped_packets_ pipe' =
    dropped_packets_ pipe +
    Z.of_nat (total - Nat.min (N.to_nat (queue_length_ pipe)) total) /\
  sent_packets_ pipe' = sent_packets_ pipe /\
  delay_link_ pipe' = delay_link_ pipe /\
  queue_length_ pipe' = queue_length_ pipe /\
  queue_delay_ms_ pipe' = queue_delay_ms_ pipe.
Proof.
  induction cs as [|c cs IH]; intros pipe Hsend Hlen; cbn zeta.
  - cbn. repeat split; lia.
  - apply Forall_cons_iff in Hsend. destruct Hsend as [Hc Hsend].
    destruct c as [t data len|]; [|contradiction].
    cbn [run_calls fold_left run_call].
    destruct (SendPacket_delivery_side t data len pipe)
      as (Fd & Fs & _ & _ & FK & FD & _).
    destruct (N.le_gt_cases (queue_length_ pipe)
                (N.of_nat (length (capacity_link_ pipe)))) as [Hfull|Hroom].
    + specialize (IH (SendPacket t data len pipe) Hsend).
      rewrite FK, Fd, Fs, FD in IH.
      rewrite SendPacket_full in IH |- * by assumption.
      cbn [capacity_link_ dropped_packets_ incr_dropped_packets] in IH.
      specialize (IH Hlen). cbn zeta in IH. cbn [length].
      destruct IH as (H1 & H2 & H3 & H4 & H5 & H6).
      unfold run_calls in *. rewrite H1, H2, H3, H4, H5, H6.
      repeat split; lia.
    + specialize (IH (SendPacket t data len pipe) Hsend).
      rewrite FK, Fd, Fs, FD in IH.
      rewrite SendPacket_room in IH |- * by assumption.
      cbn [capacity_link_ dropped_packets_ set_capacity_link] in IH.
      rewrite length_app in IH. cbn [length] in IH.
      assert (length (capacity_link_ pipe) + 1 <= N.to_nat (queue_length_ pipe))%nat
        as Hlen' by lia.
      specialize (IH Hlen'). cbn zeta in IH. cbn [length].
      destruct IH as (H1 & H2 & H3 & H4 & H5 & H6).
      unfold run_calls in *. rewrite H1, H2, H3, H4, H5, H6.
      repeat split; lia.
Qed.

(** C1 (as stated) fails: with queue bound 2 and three back-to-back
    [SendPacket] calls the third packet is dropped, and [PercentageLoss()]
    called then, before any [NetworkProcess], returns 0 and not 1/3 (the
    [float] 1.0f / 3). *)
Lemma C1_loss_is_zero_before_delivery :
  exists pipe0,
    FakeNetworkPipe_new 2 0 80 0 = Some pipe0 /\
    let data := repeat x00 100 in
    let pipe := run_calls pipe0
                  [CallSendPacket 0 data 100; CallSendPacket 0 data 100;
                   CallSendPacket 0 data 100] in
    dropped_packets_ pipe = 1 /\
    PercentageLoss pipe = float_zero /\
    PercentageLoss pipe <>
      float_div (float_of_integer 1) (float_of_integer 3).
Proof.
  eexists. split; [reflexivity|]. cbn zeta.
  split; [reflexivity|]. split; [reflexivity|]. intros H. discriminate H.
Qed.

(** C1 (amended): on a pipe constructed with capacity-queue bound [K], after
    [K+1] [SendPacket] calls (of non-negative lengths) with no
    [NetworkProcess] call in between, the drop counter is 1, the dropped
    packet is the last one (the first [K] are queued), and [PercentageLoss()]
    returns 0 because nothing has been delivered yet; when [K >= 1] and a
    [NetworkProcess] call then comes late enough to deliver the [K] queued
    packets, [PercentageLoss()] returns [1/(K+1)] as the code computes it:
    the [float] division of 1 by [K+1]. *)
Theorem C1_drop_accounting (K : N) (D C l : Z) (pipe0 : FakeNetworkPipe)
    (cs : list call) :
  FakeNetworkPipe_new K D C l = Some pipe0 ->
  Forall is_send cs ->
  Forall call_ok cs ->
  length cs = S (N.to_nat K) ->
  let pipe := run_calls pipe0 cs in
  let before_last := run_calls pipe0 (removelast cs) in
  dropped_packets_ pipe = 1 /\
  dropped_packets_ before_last = 0 /\
  capacity_link_ pipe = capacity_link_ before_last /\
  length (capacity_link_ pipe) = N.to_nat K /\
  PercentageLoss pipe = float_zero /\
  (forall t,
     (0 < K)%N ->
     Forall (fun p => arrival_time_ p <= t /\ arrival_time_ p + D <= t)
       (capacity_link_ pipe) ->
     PercentageLoss (NetworkProcess t pipe) =
     float_div (float_of_integer 1) (float_of_integer (Z.of_N K + 1))).
Proof.
  intros Hnew Hsend Hok Hlen pipe before_last.
  destruct (constructed_fields _ _ _ _ _ Hnew) as [Hp0 _].
  assert (cs <> []) as Hne by (intros ->; discriminate).
  pose proof (app_removelast_last (CallNetworkProcess 0) Hne) as Hcs.
  set (c := last cs (CallNetworkProcess 0)) in *.
  assert (length (removelast cs) = N.to_nat K) as Hlen'.
  { apply (f_equal (@length _)) in Hcs. rewrite length_app in Hcs.
    cbn in Hcs. lia. }
  assert (Forall is_send (removelast cs) /\ is_send c) as [Hsend' Hc].
  { rewrite Hcs in Hsend. apply Forall_app in Hsend.
    destruct Hsend as [H1 H2]. split; [assumption|]. now apply Forall_inv in H2. }
  destruct (sends_fill_then_drop (removelast cs) pipe0 Hsend')
    as (Fcap & Fdrop & Fsent & Fdel & FK & FD).
  { rewrite Hp0. cbn. lia. }
  fold before_last in Fcap, Fdrop, Fsent, Fdel, FK, FD.
  rewrite Hlen' in Fcap, Fdrop.
  replace (capacity_link_ pipe0) with (@nil NetworkPacket) in Fcap, Fdrop
    by (rewrite Hp0; reflexivity).
  replace (queue_length_ pipe0) with K in Fcap, Fdrop, FK
    by (rewrite Hp0; reflexivity).
  replace (dropped_packets_ pipe0) with 0 in Fdrop by (rewrite Hp0; reflexivity).
  replace (sent_packets_ pipe0) with 0 in Fsent by (rewrite Hp0; reflexivity).
  replace (delay_link_ pipe0) with (@nil NetworkPacket) in Fdel
    by (rewrite Hp0; reflexivity).
  replace (queue_delay_ms_ pipe0) with D in FD by (rewrite Hp0; reflexivity).
  cbn [length Nat.add] in Fcap, Fdrop.
  rewrite Nat.min_id in Fcap, Fdrop. rewrite Nat.sub_diag in Fdrop.
  assert (pipe = incr_dropped_packets before_last) as Hpipe.
  { unfold pipe. rewrite Hcs, run_calls_snoc. fold before_last.
    destruct c as [t data len|]; [|contradiction]. cbn [run_call].
    apply SendPacket_full. rewrite FK, Fcap. lia. }
  assert (dropped_packets_ pipe = 1) as Hd
    by (rewrite Hpipe; cbn; lia).
  assert (sent_packets_ pipe = 0) as Hs by (rewrite Hpipe; cbn; lia).
  repeat split.
  - exact Hd.
  - lia.
  - rewrite Hpipe. reflexivity.
  - rewrite Hpipe. exact Fcap.
  - unfold PercentageLoss. rewrite Hs. reflexivity.
  - intros t HK Hlate.
    assert (queue_delay_ms_ pipe = D) as HD by (rewrite Hpipe; exact FD).
    assert (delay_link_ pipe = []) as Hdl by (rewrite Hpipe; exact Fdel).
    rewrite NetworkProcess_late.
    2: { rewrite HD. exact Hlate. }
    2: { rewrite Hdl. constructor. }
    unfold PercentageLoss. cbn [sent_packets_ dropped_packets_ set_delay_link].
    destruct (deliver_all_fields
                (delay_link_ pipe ++
                 map (IncrementArrivalTime (queue_delay_ms_ pipe))
                   (capacity_link_ pipe))
                (set_capacity_link [] pipe))
      as (_ & _ & _ & _ & _ & -> & -> & _).
    cbn [sent_packets_ dropped_packets_ set_capacity_link].
    rewrite Hdl, Hs, Hd. cbn [app]. rewrite length_map.
    replace (length (capacity_link_ pipe)) with (N.to_nat K)
      by (rewrite Hpipe; symmetry; exact Fcap).
    rewrite N_nat_Z.
    destruct (0 + Z.of_N K =? 0) eqn:E.
    + apply Z.eqb_eq in E. lia.
    + replace (0 + Z.of_N K + 1) with (Z.of_N K + 1) by lia. reflexivity.
Qed.

(** The scenario of the specification: 80 kbps, queue bound 2, three sends of
    100 bytes at the same instant, then a [NetworkProcess] 20 ms later.  The
    loss is then 11184811 * 2^-25, the [float] 0x1.555556p-2 that 1.0f / 3
    is. *)
Lemma C1_drop_accounting_witness :
  exists pipe0,
    FakeNetworkPipe_new 2 0 80 0 = Some pipe0 /\
    let data := repeat x00 100 in
    let pipe := run_calls pipe0
                  [CallSendPacket 0 data 100; CallSendPacket 0 data 100;
                   CallSendPacket 0 data 100] in
    dropped_packets_ pipe = 1 /\
    PercentageLoss pipe = float_zero /\
    PercentageLoss (NetworkProcess 20 pipe) = S754_finite false 11184811 (-25).
Proof.
  eexists. split; [reflexivity|]. intros data pipe.
  pose proof (C1_drop_accounting 2 0 80 0 _
                [CallSendPacket 0 data 100; CallSendPacket 0 data 100;
                 CallSendPacket 0 data 100] eq_refl) as H.
  destruct H as (Hd & _ & _ & _ & H0 & Hlate).
  - repeat constructor.
  - repeat constructor; cbn; lia.
  - reflexivity.
  - split; [exact Hd|]. split; [exact H0|].
    etransitivity; [apply (Hlate 20)|reflexivity].
    + reflexivity.
    + repeat constructor; cbn; lia.
Defined.

(** ** A single packet through the pipe *)

Lemma single_packet_process t pipe0 p pipe :
  capacity_link_ pipe0 = [] -> delay_link_ pipe0 = [] ->
  single_packet_state pipe0 p pipe ->
  single_packet_state pipe0 p (NetworkProcess t pipe).
Proof.
  intros Hc Hd. destruct pipe0 as [r cap del K D B l dr se tot].
  cbn in Hc, Hd. subst cap del. unfold single_packet_state. cbn.
  intros [ -> | [ -> | -> ] ]; unfold NetworkProcess; cbn.
  - destruct (t >=? arrival_time_ p); cbn; auto.
    destruct (t >=? arrival_time_ p + D); cbn; auto.
  - destruct (t >=? arrival_time_ p + D); cbn; auto.
  - auto.
Qed.

Lemma single_packet_late t pipe0 p pipe :
  capacity_link_ pipe0 = [] -> delay_link_ pipe0 = [] ->
  arrival_time_ p <= t -> arrival_time_ p + queue_delay_ms_ pipe0 <= t ->
  single_packet_state pipe0 p pipe ->
  NetworkProcess t pipe =
  deliver (IncrementArrivalTime (queue_delay_ms_ pipe0) p) pipe0.
Proof.
  intros Hc Hd H1 H2. destruct pipe0 as [r cap del K D B l dr se tot].
  cbn in Hc, Hd, H2. subst cap del. unfold single_packet_state. cbn.
  apply Z.geb_le in H1, H2.
  intros [ -> | [ -> | -> ] ]; unfold NetworkProcess; cbn.
  - rewrite H1. cbn. rewrite H2. reflexivity.
  - rewrite H2. reflexivity.
  - reflexivity.
Qed.

Lemma single_packet_processes pipe0 p times : forall pipe,
  capacity_link_ pipe0 = [] -> delay_link_ pipe0 = [] ->
  single_packet_state pipe0 p pipe ->
  single_packet_state pipe0 p
    (run_calls pipe (map CallNetworkProcess times)).
Proof.
  induction times as [|t times IH]; intros pipe Hc Hd H; cbn.
  - exact H.
  - apply IH; auto. now apply single_packet_process.
Qed.

Lemma int_of_small (z : Z) : int_range z -> int_of z = z.
Proof. unfold int_range, int_of. intros Hz. rewrite Z.mod_small; lia. Qed.

(** C4: a pipe constructed with link capacity [C] kbps and queue delay [D]
    ms receives one packet of [S >= 0] bytes at time [t0] while empty; after
    any [NetworkProcess] calls and one at a time [t] late enough to deliver
    the packet, the receiver has been handed exactly that packet and
    [AverageDelay()] is [S / (C / 8) + D], both divisions rounding down.
    [C], [D] and [S] are [int] values, the clock readings and the arrival
    time are [int64_t] values, and the delay [S / (C / 8) + D] is an [int]
    value. *)
Theorem C4_AverageDelay_single_packet (K : N) (D C l : Z)
    (pipe0 : FakeNetworkPipe) (t0 : Z) (data : list byte) (S : Z)
    (earlier : list Z) (t : Z) :
  FakeNetworkPipe_new K D C l = Some pipe0 ->
  (0 < K)%N ->
  0 <= S ->
  int_range S -> int_range D -> int_range C ->
  int64_range t0 -> int64_range t ->
  int64_range (t0 + S / (C / 8) + D) ->
  int_range (S / (C / 8) + D) ->
  t0 + S / (C / 8) <= t ->
  t0 + S / (C / 8) + D <= t ->
  let pipe :=
    NetworkProcess t
      (run_calls (SendPacket t0 data S pipe0)
         (map CallNetworkProcess earlier)) in
  AverageDelay pipe = S / (C / 8) + D /\
  sent_packets_ pipe = 1 /\
  packet_receiver_ pipe = [(firstn (Z.to_nat S) data, S)].
Proof.
  intros Hnew HK HS _ _ _ _ _ _ Hint Ht1 Ht2 pipe.
  destruct (constructed_fields _ _ _ _ _ Hnew) as [Hp0 Hpos].
  assert (Z.quot C 8 = C / 8) as HB.
  { apply quot_8_pos in Hpos. apply Z.quot_div_nonneg; lia. }
  rewrite HB in *.
  assert (Z.quot S (C / 8) = S / (C / 8)) as HSq
    by (apply Z.quot_div_nonneg; lia).
  set (p := NetworkPacket_new data S t0 (t0 + S / (C / 8))).
  assert (SendPacket t0 data S pipe0 = set_capacity_link [p] pipe0) as Hsend.
  { rewrite SendPacket_room; rewrite Hp0; cbn; [|lia].
    rewrite HSq. reflexivity. }
  assert (pipe = deliver (IncrementArrivalTime (queue_delay_ms_ pipe0) p) pipe0)
    as ->.
  { unfold pipe. apply single_packet_late; try (rewrite Hp0; reflexivity).
    - cbn. lia.
    - rewrite Hp0. cbn. lia.
    - apply single_packet_processes; try (rewrite Hp0; reflexivity).
      left. exact Hsend. }
  rewrite Hp0. unfold AverageDelay.
  cbn [deliver sent_packets_ total_packet_delay_ packet_receiver_
       queue_delay_ms_ IncrementArrivalTime arrival_time_ send_time_ data_
       data_length_ p NetworkPacket_new app].
  change (0 + 1 =? 0) with false. cbv iota.
  rewrite Z.quot_1_r.
  replace (0 + (t0 + S / (C / 8) + D - t0)) with (S / (C / 8) + D) by lia.
  rewrite (int_of_small _ Hint). repeat split.
Qed.

(** 80 kbps, 50 ms of queue delay, 100 bytes sent at time 0 and processed at
    times 5, 12 and 60: the average delay is 100/10 + 50 = 60 ms. *)
Lemma C4_AverageDelay_single_packet_witness :
  exists pipe0,
    FakeNetworkPipe_new 2 50 80 0 = Some pipe0 /\
    AverageDelay
      (NetworkProcess 60
         (run_calls (SendPacket 0 (repeat x00 100) 100 pipe0)
            (map CallNetworkProcess [5; 12]))) = 60.
Proof.
  eexists. split; [reflexivity|].
  apply (C4_AverageDelay_single_packet 2 50 80 0 _ 0 (repeat x00 100) 100
           [5; 12] 60 eq_refl);
    unfold int_range, int64_range; cbn; lia.
Defined.

(** ** A run of the whole pipe *)

(** 80 kbps, queue bound 2, 20 ms of queue delay; three packets of 100 bytes
    at time 0 and a [NetworkProcess] at time 50.  Two packets are delivered
    after 10 + 20 and 20 + 20 ms, the third was dropped. *)
Example pipe_statistics_run :
  exists pipe0,
    FakeNetworkPipe_new 2 20 80 0 = Some pipe0 /\
    let data := repeat x00 100 in
    let pipe := run_calls pipe0
                  [CallSendPacket 0 data 100; CallSendPacket 0 data 100;
                   CallSendPacket 0 data 100; CallNetworkProcess 50] in
    sent_packets_ pipe = 2 /\ dropped_packets_ pipe = 1 /\
    total_packet_delay_ pipe = 70 /\ AverageDelay pipe = 35 /\
    PercentageLoss pipe = S754_finite false 11184811 (-25) /\
    map snd (packet_receiver_ pipe) = [100; 100] /\
    capacity_link_ pipe = [] /\ delay_link_ pipe = [].
Proof. eexists. split; [reflexivity|]. cbn zeta. repeat split. Qed.

(** ** A send that finds an old packet still queued *)

(** C2, the code at the failing input: 80 kbps, queue bound 2, 100 bytes sent
    at time 0 (arrival 10) and 100 bytes sent at time 50 with no
    [NetworkProcess] in between.  [SendPacket] starts the second packet at the
    arrival time of the queue tail, 10, and gives it arrival time 20; with
    [network_start_time = max(now, tail)] it would be 50 + 10 = 60. *)
Theorem C2_late_send_starts_at_queue_tail :
  exists pipe0,
    FakeNetworkPipe_new 2 0 80 0 = Some pipe0 /\
    let data := repeat x00 100 in
    let pipe1 := SendPacket 0 data 100 pipe0 in
    let pipe2 := SendPacket 50 data 100 pipe1 in
    map arrival_time_ (capacity_link_ pipe1) = [10] /\
    map arrival_time_ (capacity_link_ pipe2) = [10; 20] /\
    Z.max 50 10 + Z.quot 100 (link_capacity_bytes_ms_ pipe1) = 60.
Proof. eexists. repeat split. Qed.

(** C3, the code at the failing input: the same two sends, with clock
    readings 0 and 50.  The second packet sits on the capacity queue with
    [send_time] 50 and [arrival_time] 20. *)
Theorem C3_late_send_arrives_before_sent :
  exists pipe0,
    FakeNetworkPipe_new 2 0 80 0 = Some pipe0 /\
    let data := repeat x00 100 in
    let cs := [CallSendPacket 0 data 100; CallSendPacket 50 data 100] in
    Forall call_ok cs /\ clock_from 0 cs /\
    exists p, In p (capacity_link_ (run_calls pipe0 cs)) /\
              send_time_ p = 50 /\ arrival_time_ p = 20 /\
              arrival_time_ p < send_time_ p.
Proof.
  eexists. split; [reflexivity|]. cbn zeta. split; [|split].
  - repeat constructor; cbn; lia.
  - cbn. lia.
  - eexists. split; [right; left; reflexivity|]. cbn. repeat split.
Qed.

End PipeProperties.

(** * Properties of Stats<T> *)

Section StatsProperties.

Import bwe_test_framework.

Context {T : Type} `{Sample T}.

Lemma scan_minmax_folds (rest : list T) : forall s : Stats T,
  scan_minmax rest s =
  set_max (fold_left std_max rest (max_ s))
    (set_min (fold_left std_min rest (min_ s)) s).
Proof.
  induction rest as [|x rest IH]; intros s.
  - destruct s; reflexivity.
  - cbn [scan_minmax fold_left]. rewrite IH. destruct s; reflexivity.
Qed.

Lemma firstn_pushed (n : nat) (data : list T) (x : T) :
  (n <= length data)%nat -> firstn n (data ++ [x]) = firstn n data.
Proof.
  intros Hn. rewrite firstn_app.
  replace (n - length data)%nat with 0%nat by lia.
  cbn. apply app_nil_r.
Qed.

(** ** Each getter returns the value of the samples pushed so far *)

Lemma GetMean_run (s : Stats T) :
  mean_ok s ->
  exists n m,
    GetMean s = Some (mean_of (data_ s), set_mean m (set_last_mean_count n s)) /\
    mean_ok (set_mean m (set_last_mean_count n s)).
Proof.
  intros [Hle Hm]. unfold GetMean, bind, gets. 
  destruct (last_mean_count_ s =? length (data_ s))%nat eqn:E; cbn [negb when].
  - apply Nat.eqb_eq in E. exists (last_mean_count_ s), (mean_ s).
    assert (mean_ s = mean_of (data_ s)) as Hv
      by (rewrite Hm, E; now rewrite firstn_all).
    cbn. rewrite <- Hv. split.
    + destruct s; reflexivity.
    + split; cbn; assumption.
  - apply Nat.eqb_neq in E.
    exists (length (data_ s)), (mean_of (data_ s)).
    unfold modify, assertion, bind, gets. cbn.
    destruct (data_ s) as [|x data] eqn:Ed; [cbn in *; lia|].
    cbn. split; [reflexivity|].
    split; cbn; rewrite Ed; [cbn; lia|].
    now rewrite firstn_all.
Qed.

Lemma variance_of_nonempty (data : list T) :
  length data <> 0%nat ->
  variance_of data =
  divide (sum_squares (mean_of data) data zero) (of_size (length data)).
Proof. destruct data; [cbn; congruence | reflexivity]. Qed.

Lemma GetVariance_run (s : Stats T) :
  caches_ok s ->
  exists s',
    GetVariance s = Some (variance_of (data_ s), s') /\
    data_ s' = data_ s /\ caches_ok s'.
Proof.
  intros (Hmean & [Hle Hv] & Hmm). unfold GetVariance, bind, gets.
  destruct (last_variance_count_ s =? length (data_ s))%nat eqn:E; cbn [negb when].
  - apply Nat.eqb_eq in E. exists s. cbn.
    assert (variance_ s = variance_of (data_ s)) as Hv'
      by (rewrite Hv, E; now rewrite firstn_all).
    rewrite Hv'. split; [reflexivity|]. split; [reflexivity|].
    unfold caches_ok, variance_ok. auto.
  - apply Nat.eqb_neq in E.
    unfold modify at 1. cbv beta iota.
    destruct (GetMean_run (set_last_variance_count (length (data_ s)) s) Hmean)
      as (n & m & HG & Hok).
    rewrite HG. unfold modify, assertion. cbv beta iota.
    cbn [last_variance_count_ set_variance set_mean set_last_mean_count
         set_last_variance_count data_ variance_].
    assert (length (data_ s) <> 0)%nat as Hne by lia.
    apply Nat.eqb_neq in Hne. rewrite Hne. cbn [negb].
    apply Nat.eqb_neq in Hne. cbv beta iota. cbn [variance_ set_variance].
    rewrite <- (variance_of_nonempty _ Hne).
    eexists. split; [reflexivity|]. split; [reflexivity|].
    split; [exact Hok|]. split; [|exact Hmm].
    split; cbn; [lia|]. now rewrite firstn_all.
Qed.

Lemma RefreshMinMax_run (s : Stats T) :
  minmax_ok s ->
  exists n lo hi,
    RefreshMinMax s =
      Some (tt, set_min lo (set_max hi (set_last_minmax_count n s))) /\
    lo = min_of (data_ s) /\ hi = max_of (data_ s) /\
    minmax_ok (set_min lo (set_max hi (set_last_minmax_count n s))).
Proof.
  intros (Hle & Hlo & Hhi). unfold RefreshMinMax, bind, gets.
  destruct (last_minmax_count_ s =? length (data_ s))%nat eqn:E; cbn [negb when].
  - apply Nat.eqb_eq in E. rewrite E, firstn_all in Hlo, Hhi.
    exists (last_minmax_count_ s), (min_ s), (max_ s).
    repeat split; try assumption.
    + cbn. destruct s; reflexivity.
    + cbn. rewrite E, firstn_all. assumption.
    + cbn. rewrite E, firstn_all. assumption.
  - exists (length (data_ s)), (min_of (data_ s)), (max_of (data_ s)).
    unfold modify. cbv beta iota.
    cbn [data_ set_min set_max set_last_minmax_count].
    destruct (data_ s) as [|first rest] eqn:Ed.
    + cbn. do 3 (split; [reflexivity|]).
      unfold minmax_ok. cbn. rewrite Ed. cbn. auto.
    + cbv beta iota. rewrite scan_minmax_folds.
      cbn. do 3 (split; [reflexivity|]).
      unfold minmax_ok. cbn. rewrite Ed. cbn [length firstn].
      rewrite firstn_all. cbn. auto.
Qed.

Lemma GetMin_run (s : Stats T) :
  caches_ok s ->
  exists s',
    GetMin s = Some (min_of (data_ s), s') /\
    data_ s' = data_ s /\ caches_ok s'.
Proof.
  intros (Hmean & Hvar & Hmm). unfold GetMin, bind, gets.
  destruct (RefreshMinMax_run s Hmm) as (n & lo & hi & -> & -> & -> & Hok).
  eexists. split; [reflexivity|]. split; [reflexivity|].
  split; [exact Hmean|]. split; [exact Hvar|exact Hok].
Qed.

Lemma GetMax_run (s : Stats T) :
  caches_ok s ->
  exists s',
    GetMax s = Some (max_of (data_ s), s') /\
    data_ s' = data_ s /\ caches_ok s'.
Proof.
  intros (Hmean & Hvar & Hmm). unfold GetMax, bind, gets.
  destruct (RefreshMinMax_run s Hmm) as (n & lo & hi & -> & -> & -> & Hok).
  eexists. split; [reflexivity|]. split; [reflexivity|].
  split; [exact Hmean|]. split; [exact Hvar|exact Hok].
Qed.

Lemma run_getter_value (g : getter) (s : Stats T) :
  caches_ok s ->
  exists s',
    run_getter g s = Some (value_of g (data_ s), s') /\
    data_ s' = data_ s /\ caches_ok s'.
Proof.
  intros Hok. destruct g; cbn [run_getter value_of].
  - destruct Hok as (Hmean & Hvar & Hmm).
    destruct (GetMean_run s Hmean) as (n & m & -> & Hok').
    eexists. split; [reflexivity|]. split; [reflexivity|].
    split; [exact Hok'|]. split; [exact Hvar|exact Hmm].
  - now apply GetVariance_run.
  - now apply GetMin_run.
  - now apply GetMax_run.
Qed.

Lemma run_getters_values (gs : list getter) : forall s : Stats T,
  caches_ok s ->
  exists s',
    run_getters gs s = Some (map (fun g => value_of g (data_ s)) gs, s') /\
    data_ s' = data_ s /\ caches_ok s'.
Proof.
  induction gs as [|g gs IH]; intros s Hok.
  - exists s. split; [reflexivity|]. split; [reflexivity|assumption].
  - cbn [run_getters map]. unfold bind.
    destruct (run_getter_value g s Hok) as (s1 & -> & Hd1 & Hok1).
    destruct (IH s1 Hok1) as (s2 & -> & Hd2 & Hok2).
    exists s2. rewrite Hd1. cbn.
    split; [reflexivity|]. split; [congruence|assumption].
Qed.

(** ** Pushing keeps the caches valid for the prefix they were computed on *)

Lemma Push_ok (x : T) (s : Stats T) :
  caches_ok s ->
  exists s', Push x s = Some (tt, s') /\
             data_ s' = data_ s ++ [x] /\ caches_ok s'.
Proof.
  intros ((Hm1 & Hm2) & (Hv1 & Hv2) & (Hx1 & Hx2 & Hx3)).
  eexists. split; [reflexivity|]. split; [reflexivity|].
  unfold caches_ok, mean_ok, variance_ok, minmax_ok. cbn.
  rewrite !firstn_pushed by assumption. rewrite length_app. cbn.
  repeat split; auto; lia.
Qed.

Lemma push_all_ok (batch : list T) : forall s : Stats T,
  caches_ok s ->
  exists s', push_all batch s = Some (tt, s') /\
             data_ s' = data_ s ++ batch /\ caches_ok s'.
Proof.
  induction batch as [|x batch IH]; intros s Hok.
  - exists s. cbn. rewrite app_nil_r. auto.
  - cbn [push_all]. unfold bind.
    destruct (Push_ok x s Hok) as (s1 & -> & Hd1 & Hok1).
    destruct (IH s1 Hok1) as (s2 & -> & Hd2 & Hok2).
    exists s2. rewrite Hd2, Hd1, <- app_assoc. auto.
Qed.

Lemma Stats_new_ok : caches_ok (Stats_new (T := T)).
Proof. repeat split; cbn; auto. Qed.

(** ** Batches *)

(** C9: push a first batch into a new [Stats<T>], call any getters, push a
    second batch, then call [GetMean], [GetVariance], [GetMin] and [GetMax]
    in any order and number: no assertion fails, and the values returned are
    those returned after pushing both batches at once, namely the mean,
    variance, minimum and maximum of all the samples. *)
Theorem C9_two_batches_as_one (xs ys : list T) (between after : list getter) :
  exists (values : list T) (s2 s1 : Stats T),
    two_batches xs ys between after Stats_new = Some (values, s2) /\
    one_batch (xs ++ ys) after Stats_new = Some (values, s1) /\
    values = map (fun g => value_of g (xs ++ ys)) after.
Proof.
  unfold two_batches, one_batch, bind.
  destruct (push_all_ok xs Stats_new Stats_new_ok) as (a & -> & Hda & Hoka).
  destruct (run_getters_values between a Hoka) as (b & -> & Hdb & Hokb).
  destruct (push_all_ok ys b Hokb) as (c & -> & Hdc & Hokc).
  destruct (run_getters_values after c Hokc) as (d & -> & Hdd & Hokd).
  destruct (push_all_ok (xs ++ ys) Stats_new Stats_new_ok)
    as (e & -> & Hde & Hoke).
  destruct (run_getters_values after e Hoke) as (f & -> & Hdf & Hokf).
  assert (data_ c = xs ++ ys) as -> by (rewrite Hdc, Hdb, Hda; reflexivity).
  assert (data_ e = xs ++ ys) as -> by (rewrite Hde; reflexivity).
  exists (map (fun g => value_of g (xs ++ ys)) after), d, f.
  split; [reflexivity|]. split; reflexivity.
Qed.

(** C10: on a new [Stats<T>] with no sample, [GetMean], [GetVariance],
    [GetMin] and [GetMax] each return 0; none reaches its assertion and none
    changes the object. *)
Theorem C10_getters_on_new_Stats :
  GetMean Stats_new = Some (zero, Stats_new (T := T)) /\
  GetVariance Stats_new = Some (zero, Stats_new (T := T)) /\
  GetMin Stats_new = Some (zero, Stats_new (T := T)) /\
  GetMax Stats_new = Some (zero, Stats_new (T := T)).
Proof. repeat split. Qed.

End StatsProperties.

(** ** Stats<int> on a few samples *)

Section StatsExamples.

Import bwe_test_framework.

(** Samples 1, 2, 3, 6: mean 12/4 = 3, variance (4+1+0+9)/4 = 3 with the
    truncating division of [int], minimum 1, maximum 6. *)
Example Stats_int_run :
  option_map fst
    (one_batch [1; 2; 3; 6]%Z
       [CallGetMean; CallGetVariance; CallGetMin; CallGetMax] Stats_new)
  = Some [3; 3; 1; 6]%Z.
Proof. reflexivity. Qed.

(** The same samples in two batches, with the mean and the maximum of the
    first batch (1 and 2) read in between. *)
Example Stats_int_two_batches :
  option_map fst
    (two_batches [1; 2]%Z [3; 6]%Z [CallGetMean; CallGetMax]
       [CallGetMean; CallGetVariance; CallGetMin; CallGetMax] Stats_new)
  = Some [3; 3; 1; 6]%Z /\
  option_map fst
    (bind (push_all [1; 2]%Z)
       (fun _ => run_getters [CallGetMean; CallGetMax]) Stats_new)
  = Some [1; 2]%Z.
Proof. split; reflexivity. Qed.

End StatsExamples.

(** * More on FakeNetworkPipe: accounting, order and timing *)

Section PipeAccounting.

Import fake_network_pipe.
Local Open Scope Z_scope.

(** ** Subsequences *)

Lemma subsequence_refl {A} (l : list A) : subsequence l l.
Proof. induction l; constructor; auto. Qed.

Lemma subsequence_app {A} (a b c d : list A) :
  subsequence a b -> subsequence c d -> subsequence (a ++ c) (b ++ d).
Proof.
  intros Hab Hcd. induction Hab; cbn; try constructor; auto.
Qed.

Lemma subsequence_length {A} (l1 l2 : list A) :
  subsequence l1 l2 -> (length l1 <= length l2)%nat.
Proof. induction 1; cbn; lia. Qed.

Lemma sent_payloads_app cs1 cs2 :
  sent_payloads (cs1 ++ cs2) = sent_payloads cs1 ++ sent_payloads cs2.
Proof.
  induction cs1 as [|[t data len|t] cs1 IH]; cbn; rewrite ?IH; reflexivity.
Qed.

(** ** What one call does to the books *)

Lemma NetworkProcess_carried t pipe :
  carried (NetworkProcess t pipe) = carried pipe.
Proof.
  destruct (NetworkProcess_spec t pipe)
    as (moved & rest & delivered & waiting & Hcap & Hdel & -> & _).
  destruct (deliver_all_fields delivered (set_capacity_link rest pipe))
    as (Fc & _ & _ & _ & _ & _ & _ & Fr & _).
  unfold carried.
  cbn [packet_receiver_ delay_link_ capacity_link_ set_delay_link].
  rewrite Fc, Fr. cbn [packet_receiver_ capacity_link_ set_capacity_link].
  rewrite Hcap, map_app.
  assert (map payload (delay_link_ pipe) ++ map payload moved =
          map payload delivered ++ map payload waiting) as E.
  { rewrite <- (map_app payload delivered), <- Hdel, map_app, map_map.
    reflexivity. }
  change (fun p => (data_ p, data_length_ p)) with payload.
  rewrite <- !app_assoc.
  rewrite (app_assoc (map payload (delay_link_ pipe))), E, <- app_assoc.
  reflexivity.
Qed.

Lemma NetworkProcess_books t pipe :
  dropped_packets_ (NetworkProcess t pipe) = dropped_packets_ pipe /\
  queue_length_ (NetworkProcess t pipe) = queue_length_ pipe /\
  queue_delay_ms_ (NetworkProcess t pipe) = queue_delay_ms_ pipe /\
  link_capacity_bytes_ms_ (NetworkProcess t pipe) =
    link_capacity_bytes_ms_ pipe /\
  (exists k, capacity_link_ pipe = firstn k (capacity_link_ pipe) ++
                                   capacity_link_ (NetworkProcess t pipe)).
Proof.
  destruct (NetworkProcess_spec t pipe)
    as (moved & rest & delivered & waiting & Hcap & Hdel & -> & _).
  destruct (deliver_all_fields delivered (set_capacity_link rest pipe))
    as (Fc & _ & FK & FD & FB & Fdr & _).
  cbn [dropped_packets_ queue_length_ queue_delay_ms_ link_capacity_bytes_ms_
       capacity_link_ set_delay_link].
  rewrite Fc, FK, FD, FB, Fdr. cbn. repeat split.
  exists (length moved). rewrite Hcap at 1 2.
  rewrite firstn_app, firstn_all, Nat.sub_diag. cbn. now rewrite app_nil_r.
Qed.

Lemma SendPacket_carried t data len pipe :
  (N.of_nat (length (capacity_link_ pipe)) < queue_length_ pipe)%N ->
  carried (SendPacket t data len pipe) =
  carried pipe ++ [(firstn (Z.to_nat len) data, len)].
Proof.
  intros Hroom. rewrite SendPacket_room by assumption. unfold carried.
  cbn [packet_receiver_ delay_link_ capacity_link_ set_capacity_link].
  rewrite map_app, <- !app_assoc. reflexivity.
Qed.

(** ** The books of a constructed pipe *)

Lemma run_calls_books K D C l pipe0 cs :
  FakeNetworkPipe_new K D C l = Some pipe0 ->
  let pipe := run_calls pipe0 cs in
  queue_length_ pipe = K /\
  (length (capacity_link_ pipe) <= N.to_nat K)%nat /\
  subsequence (carried pipe) (sent_payloads cs) /\
  0 <= dropped_packets_ pipe /\
  Z.of_nat (length (sent_payloads cs)) =
    dropped_packets_ pipe + Z.of_nat (length (carried pipe)).
Proof.
  intros Hnew. destruct (constructed_fields _ _ _ _ _ Hnew) as [Hp0 _].
  induction cs as [|c cs IH] using rev_ind; cbn zeta.
  - rewrite Hp0. cbn. repeat split; try lia. constructor.
  - cbn zeta in IH. destruct IH as (HK & Hlen & Hsub & Hdr & Hcount).
    rewrite run_calls_snoc, sent_payloads_app, length_app.
    set (pipe := run_calls pipe0 cs) in *.
    destruct c as [t data len|t]; cbn [run_call sent_payloads length].
    + destruct (SendPacket_delivery_side t data len pipe)
        as (_ & _ & _ & _ & FK & _).
      destruct (N.le_gt_cases (queue_length_ pipe)
                  (N.of_nat (length (capacity_link_ pipe)))) as [Hfull|Hroom].
      * rewrite SendPacket_full in * by assumption.
        change (carried (incr_dropped_packets pipe)) with (carried pipe).
        cbn [queue_length_ capacity_link_ dropped_packets_ incr_dropped_packets].
        repeat split; try assumption; try lia.
        rewrite <- (app_nil_r (carried pipe)).
        apply subsequence_app; [assumption|repeat constructor].
      * rewrite SendPacket_carried by assumption.
        rewrite SendPacket_room in * by assumption.
        cbn [queue_length_ capacity_link_ dropped_packets_ set_capacity_link].
        rewrite !length_app. cbn [length].
        repeat split; try assumption; try lia.
        apply subsequence_app; [assumption|apply subsequence_refl].
    + rewrite NetworkProcess_carried, app_nil_r.
      destruct (NetworkProcess_books t pipe) as (-> & -> & _ & _ & k & Hk).
      repeat split; try assumption; try lia.
      apply (f_equal (@length _)) in Hk. rewrite length_app in Hk. lia.
Qed.

(** X1: every packet given to [SendPacket] is in exactly one place: the
    number of [SendPacket] calls (of non-negative lengths) made on a
    constructed pipe equals [dropped_packets_ + sent_packets_] plus the
    lengths of the two queues. *)
Theorem X1_packet_conservation (K : N) (D C l : Z) (pipe0 : FakeNetworkPipe)
    (cs : list call) :
  FakeNetworkPipe_new K D C l = Some pipe0 ->
  Forall call_ok cs ->
  let pipe := run_calls pipe0 cs in
  Z.of_nat (length (sent_payloads cs)) =
    dropped_packets_ pipe + sent_packets_ pipe +
    Z.of_nat (length (delay_link_ pipe)) +
    Z.of_nat (length (capacity_link_ pipe)).
Proof.
  intros Hnew _ pipe.
  destruct (run_calls_books K D C l pipe0 cs Hnew) as (_ & _ & _ & _ & Hcount).
  fold pipe in Hcount. rewrite Hcount. unfold carried.
  rewrite !length_app, !length_map.
  assert (counts_deliveries pipe) as Hc.
  { apply run_calls_counts_deliveries.
    destruct (constructed_fields _ _ _ _ _ Hnew) as [-> _]. reflexivity. }
  unfold counts_deliveries in Hc. lia.
Qed.

Lemma X1_packet_conservation_witness :
  exists pipe0,
    FakeNetworkPipe_new 2 20 80 0 = Some pipe0 /\
    let data := repeat x00 100 in
    let pipe := run_calls pipe0
                  [CallSendPacket 0 data 100; CallSendPacket 0 data 100;
                   CallSendPacket 0 data 100; CallNetworkProcess 30] in
    3 = dropped_packets_ pipe + sent_packets_ pipe +
        Z.of_nat (length (delay_link_ pipe)) +
        Z.of_nat (length (capacity_link_ pipe)) /\
    dropped_packets_ pipe = 1 /\ sent_packets_ pipe = 1 /\
    length (delay_link_ pipe) = 1%nat /\ capacity_link_ pipe = [].
Proof.
  eexists. split; [reflexivity|]. intros data pipe.
  split; [|repeat split].
  apply (X1_packet_conservation 2 20 80 0 _
           [CallSendPacket 0 data 100; CallSendPacket 0 data 100;
            CallSendPacket 0 data 100; CallNetworkProcess 30] eq_refl).
  repeat constructor; cbn; lia.
Defined.

(** X2: the capacity queue of a constructed pipe never holds more than
    [queue_length_] packets, whatever calls are made. *)
Theorem X2_capacity_queue_bounded (K : N) (D C l : Z)
    (pipe0 : FakeNetworkPipe) (cs : list call) :
  FakeNetworkPipe_new K D C l = Some pipe0 ->
  (N.of_nat (length (capacity_link_ (run_calls pipe0 cs))) <=
   queue_length_ (run_calls pipe0 cs))%N.
Proof.
  intros Hnew.
  destruct (run_calls_books K D C l pipe0 cs Hnew) as (HK & Hlen & _).
  cbn zeta in HK, Hlen. rewrite HK. lia.
Qed.

Lemma X2_capacity_queue_bounded_witness :
  exists pipe0,
    FakeNetworkPipe_new 2 0 80 0 = Some pipe0 /\
    let data := repeat x00 100 in
    let pipe := run_calls pipe0
                  [CallSendPacket 0 data 100; CallSendPacket 1 data 100;
                   CallSendPacket 2 data 100; CallSendPacket 3 data 100] in
    (N.of_nat (length (capacity_link_ pipe)) <= queue_length_ pipe)%N /\
    length (capacity_link_ pipe) = 2%nat.
Proof.
  eexists. split; [reflexivity|]. intros data pipe. split; [|reflexivity].
  exact (X2_capacity_queue_bounded 2 0 80 0 _
           [CallSendPacket 0 data 100; CallSendPacket 1 data 100;
            CallSendPacket 2 data 100; CallSendPacket 3 data 100] eq_refl).
Defined.

(** X3: the pipe neither reorders, duplicates nor alters packets: for calls
    with non-negative lengths, what the receiver has been handed, followed by
    the contents of the delay queue and of the capacity queue, is the
    sequence of copies ([data_length] bytes of [data], with [data_length])
    given to [SendPacket], in call order, with the dropped ones left out. *)
Theorem X3_order_and_content_preserved (K : N) (D C l : Z)
    (pipe0 : FakeNetworkPipe) (cs : list call) :
  FakeNetworkPipe_new K D C l = Some pipe0 ->
  Forall call_ok cs ->
  let pipe := run_calls pipe0 cs in
  subsequence
    (packet_receiver_ pipe ++
     map payload (delay_link_ pipe) ++ map payload (capacity_link_ pipe))
    (sent_payloads cs) /\
  Z.of_nat (length (packet_receiver_ pipe ++
                    map payload (delay_link_ pipe) ++
                    map payload (capacity_link_ pipe))) =
    Z.of_nat (length (sent_payloads cs)) - dropped_packets_ pipe.
Proof.
  intros Hnew _ pipe.
  destruct (run_calls_books K D C l pipe0 cs Hnew) as (_ & _ & Hsub & _ & Hc).
  fold pipe in Hsub, Hc. unfold carried in Hsub, Hc. split; [exact Hsub|lia].
Qed.

Lemma X3_order_and_content_preserved_witness :
  exists pipe0,
    FakeNetworkPipe_new 2 0 80 0 = Some pipe0 /\
    let pipe := run_calls pipe0
                  [CallSendPacket 0 [x01; x02; x03] 2;
                   CallSendPacket 0 [x04; x05] 2;
                   CallSendPacket 0 [x06] 1;
                   CallNetworkProcess 0;
                   CallSendPacket 1 [x07; x08] 1] in
    packet_receiver_ pipe = [([x01; x02], 2); ([x04; x05], 2)] /\
    map payload (capacity_link_ pipe) = [([x07], 1)] /\
    subsequence
      (packet_receiver_ pipe ++
       map payload (delay_link_ pipe) ++ map payload (capacity_link_ pipe))
      [([x01; x02], 2); ([x04; x05], 2); ([x06], 1); ([x07], 1)].
Proof.
  eexists. split; [reflexivity|]. intros pipe.
  split; [reflexivity|]. split; [reflexivity|].
  refine (proj1 (X3_order_and_content_preserved 2 0 80 0 _
           [CallSendPacket 0 [x01; x02; x03] 2;
            CallSendPacket 0 [x04; x05] 2;
            CallSendPacket 0 [x06] 1;
            CallNetworkProcess 0;
            CallSendPacket 1 [x07; x08] 1] eq_refl _)).
  repeat constructor; cbn; lia.
Defined.

(** ** A pipe with no room at all *)

Lemma zero_queue_run D B l cs : forall n,
  run_calls (mkFakeNetworkPipe [] [] [] 0 D B l n 0 0) cs =
  mkFakeNetworkPipe [] [] [] 0 D B l
    (n + Z.of_nat (length (sent_payloads cs))) 0 0.
Proof.
  induction cs as [|[t data len|t] cs IH]; intros n; cbn [run_calls fold_left].
  - cbn. now rewrite Z.add_0_r.
  - cbn [run_call sent_payloads length].
    rewrite SendPacket_full by (cbn; lia).
    change (fold_left run_call cs ?p) with (run_calls p cs).
    unfold incr_dropped_packets. cbn [packet_receiver_ capacity_link_
      delay_link_ queue_length_ queue_delay_ms_ link_capacity_bytes_ms_
      loss_percent_ dropped_packets_ sent_packets_ total_packet_delay_].
    rewrite IH. f_equal. lia.
  - cbn [run_call sent_payloads].
    change (fold_left run_call cs ?p) with (run_calls p cs).
    unfold NetworkProcess. cbn [capacity_link_ delay_link_]. apply IH.
Qed.

(** X4: a pipe constructed with [queue_length] 0 drops every packet: the
    drop counter equals the number of [SendPacket] calls, nothing is ever
    queued or delivered, and [PercentageLoss()] and [AverageDelay()] both
    stay at 0. *)
Theorem X4_zero_queue_drops_everything (D C l : Z) (pipe0 : FakeNetworkPipe)
    (cs : list call) :
  FakeNetworkPipe_new 0 D C l = Some pipe0 ->
  let pipe := run_calls pipe0 cs in
  dropped_packets_ pipe = Z.of_nat (length (sent_payloads cs)) /\
  packet_receiver_ pipe = [] /\
  capacity_link_ pipe = [] /\ delay_link_ pipe = [] /\
  PercentageLoss pipe = float_zero /\ AverageDelay pipe = 0.
Proof.
  intros Hnew pipe. destruct (constructed_fields _ _ _ _ _ Hnew) as [Hp0 _].
  unfold pipe. rewrite Hp0, zero_queue_run. cbn. repeat split.
Qed.

Lemma X4_zero_queue_drops_everything_witness :
  exists pipe0,
    FakeNetworkPipe_new 0 0 80 0 = Some pipe0 /\
    let data := repeat x00 100 in
    let pipe := run_calls pipe0
                  [CallSendPacket 0 data 100; CallNetworkProcess 50;
                   CallSendPacket 60 data 100; CallNetworkProcess 100] in
    dropped_packets_ pipe = 2 /\ PercentageLoss pipe = float_zero.
Proof.
  eexists. split; [reflexivity|]. intros data pipe.
  destruct (X4_zero_queue_drops_everything 0 80 0 _
              [CallSendPacket 0 data 100; CallNetworkProcess 50;
               CallSendPacket 60 data 100; CallNetworkProcess 100] eq_refl)
    as (Hd & _ & _ & _ & Hl & _).
  split; [exact Hd | exact Hl].
Defined.

(** ** NetworkProcess once is enough *)

Lemma set_capacity_link_same pipe :
  set_capacity_link (capacity_link_ pipe) pipe = pipe.
Proof. destruct pipe; reflexivity. Qed.

Lemma set_delay_link_same pipe : set_delay_link (delay_link_ pipe) pipe = pipe.
Proof. destruct pipe; reflexivity. Qed.

Lemma check_capacity_link_stuck t queue pipe :
  (forall p rest, queue = p :: rest -> t < arrival_time_ p) ->
  check_capacity_link t queue pipe = set_capacity_link queue pipe.
Proof.
  intros Hhd. destruct queue as [|p rest]; [reflexivity|]. cbn.
  specialize (Hhd p rest eq_refl).
  destruct (t >=? arrival_time_ p) eqn:E; [|reflexivity].
  apply Z.geb_le in E. lia.
Qed.

Lemma check_delay_link_stuck t queue pipe :
  (forall p rest, queue = p :: rest -> t < arrival_time_ p) ->
  check_delay_link t queue pipe = set_delay_link queue pipe.
Proof.
  intros Hhd. destruct queue as [|p rest]; [reflexivity|]. cbn.
  specialize (Hhd p rest eq_refl).
  destruct (t >=? arrival_time_ p) eqn:E; [|reflexivity].
  apply Z.geb_le in E. lia.
Qed.

(** X5: a second [NetworkProcess] call at the same clock reading changes
    nothing: whatever the first call left on the queues is not yet due. *)
Theorem X5_NetworkProcess_idempotent (t : Z) (pipe : FakeNetworkPipe) :
  NetworkProcess t (NetworkProcess t pipe) = NetworkProcess t pipe.
Proof.
  destruct (NetworkProcess_spec t pipe)
    as (moved & rest & delivered & waiting & _ & _ & Hrun & _ & Hrest & _ & Hwait).
  destruct (deliver_all_fields delivered (set_capacity_link rest pipe))
    as (Fc & _).
  assert (capacity_link_ (NetworkProcess t pipe) = rest) as Hc
    by (rewrite Hrun; cbn; rewrite Fc; reflexivity).
  assert (delay_link_ (NetworkProcess t pipe) = waiting) as Hd
    by (rewrite Hrun; reflexivity).
  rewrite NetworkProcess_loops.
  rewrite (check_capacity_link_stuck t (capacity_link_ (NetworkProcess t pipe)))
    by (rewrite Hc; exact Hrest).
  rewrite set_capacity_link_same.
  rewrite check_delay_link_stuck by (rewrite Hd; exact Hwait).
  apply set_delay_link_same.
Qed.

(** ** A late NetworkProcess flushes the pipe *)

(** X6: if the clock reading [t] is not before the arrival time of any packet
    on the delay queue, nor before the arrival time of any packet on the
    capacity queue, with and without the queue delay added, then
    [NetworkProcess] empties both queues and hands every packet to the
    receiver, delay queue first, each queue in order. *)
Theorem X6_late_NetworkProcess_flushes (t : Z) (pipe : FakeNetworkPipe) :
  Forall (fun p => arrival_time_ p <= t /\
                   arrival_time_ p + queue_delay_ms_ pipe <= t)
    (capacity_link_ pipe) ->
  Forall (fun q => arrival_time_ q <= t) (delay_link_ pipe) ->
  let pipe' := NetworkProcess t pipe in
  capacity_link_ pipe' = [] /\ delay_link_ pipe' = [] /\
  packet_receiver_ pipe' =
    packet_receiver_ pipe ++
    map payload (delay_link_ pipe) ++ map payload (capacity_link_ pipe) /\
  sent_packets_ pipe' =
    sent_packets_ pipe + Z.of_nat (length (delay_link_ pipe)) +
    Z.of_nat (length (capacity_link_ pipe)) /\
  dropped_packets_ pipe' = dropped_packets_ pipe.
Proof.
  intros Hcap Hdel pipe'. unfold pipe'.
  rewrite (NetworkProcess_late t pipe Hcap Hdel).
  cbn [capacity_link_ delay_link_ packet_receiver_ sent_packets_
       dropped_packets_ set_delay_link].
  match goal with
  | |- context [deliver_all ?d ?s] =>
      destruct (deliver_all_fields d s)
        as (-> & _ & _ & _ & _ & -> & -> & -> & _)
  end.
  cbn [capacity_link_ packet_receiver_ sent_packets_ dropped_packets_
       set_capacity_link].
  rewrite length_app, length_map, !map_app, map_map.
  repeat split. lia.
Qed.

Lemma X6_late_NetworkProcess_flushes_witness :
  exists pipe0,
    FakeNetworkPipe_new 3 100 80 0 = Some pipe0 /\
    let data := repeat x00 100 in
    let pipe := run_calls pipe0
                  [CallSendPacket 0 data 100; CallSendPacket 1 data 100;
                   CallSendPacket 2 data 100; CallNetworkProcess 25] in
    length (delay_link_ pipe) = 2%nat /\
    length (capacity_link_ pipe) = 1%nat /\
    capacity_link_ (NetworkProcess 130 pipe) = [] /\
    delay_link_ (NetworkProcess 130 pipe) = [] /\
    sent_packets_ (NetworkProcess 130 pipe) = 3.
Proof.
  eexists. split; [reflexivity|]. intros data pipe.
  split; [reflexivity|]. split; [reflexivity|].
  destruct (X6_late_NetworkProcess_flushes 130 pipe)
    as (Hc & Hd & _ & Hs & _).
  - repeat constructor; cbn; lia.
  - repeat constructor; cbn; lia.
  - split; [exact Hc|]. split; [exact Hd|]. rewrite Hs. reflexivity.
Defined.

(** ** After NetworkProcess nothing that is due stays behind *)

Lemma sorted_all_after t (l : list NetworkPacket) :
  StronglySorted arrival_le l ->
  (forall p rest, l = p :: rest -> t < arrival_time_ p) ->
  Forall (fun p => t < arrival_time_ p) l.
Proof.
  intros Hs Hhd. destruct l as [|p rest]; [constructor|].
  specialize (Hhd p rest eq_refl).
  apply StronglySorted_inv in Hs. destruct Hs as [_ Hall].
  constructor; [assumption|].
  revert Hall. apply Forall_impl. unfold arrival_le. intros q; lia.
Qed.

(** X7: on a constructed pipe driven with non-decreasing clock readings, a
    [NetworkProcess] call at reading [t] leaves only packets that are not yet
    due: every packet still on the capacity queue and every packet still on
    the delay queue has an arrival time after [t], not just the two fronts. *)
Theorem X7_nothing_due_is_left (K : N) (D C l : Z) (pipe0 : FakeNetworkPipe)
    (t0 : Z) (cs : list call) (t : Z) :
  FakeNetworkPipe_new K D C l = Some pipe0 ->
  Forall call_ok cs ->
  clock_from t0 (cs ++ [CallNetworkProcess t]) ->
  let pipe := NetworkProcess t (run_calls pipe0 cs) in
  Forall (fun p => t < arrival_time_ p) (capacity_link_ pipe) /\
  Forall (fun p => t < arrival_time_ p) (delay_link_ pipe).
Proof.
  intros Hnew Hok Hclock pipe.
  assert (Forall call_ok (cs ++ [CallNetworkProcess t])) as Hok'.
  { apply Forall_app. split; [assumption|]. repeat constructor. }
  destruct (run_calls_invariant _ t0 pipe0
              (constructed_invariant _ _ _ _ _ t0 Hnew) Hok' Hclock)
    as (t' & _ & Hsorted & _).
  rewrite run_calls_snoc in Hsorted. cbn [run_call] in Hsorted.
  fold pipe in Hsorted. unfold in_flight in Hsorted.
  apply StronglySorted_app_iff in Hsorted. destruct Hsorted as (Hd & Hc & _).
  apply StronglySorted_delayed in Hc.
  destruct (NetworkProcess_spec t (run_calls pipe0 cs))
    as (moved & rest & delivered & waiting & _ & _ & Hrun & _ & Hrest & _ & Hwait).
  fold pipe in Hrun.
  destruct (deliver_all_fields delivered
              (set_capacity_link rest (run_calls pipe0 cs))) as (Fc & _).
  assert (capacity_link_ pipe = rest) as Ec
    by (rewrite Hrun; cbn; rewrite Fc; reflexivity).
  assert (delay_link_ pipe = waiting) as Ed by (rewrite Hrun; reflexivity).
  split; apply sorted_all_after; try assumption.
  - rewrite Ec. exact Hrest.
  - rewrite Ed. exact Hwait.
Qed.

Lemma X7_nothing_due_is_left_witness :
  exists pipe0,
    FakeNetworkPipe_new 3 100 80 0 = Some pipe0 /\
    let data := repeat x00 100 in
    let pipe := NetworkProcess 115
                  (run_calls pipe0
                     [CallSendPacket 0 data 100; CallSendPacket 1 data 100;
                      CallSendPacket 2 data 100; CallNetworkProcess 25;
                      CallSendPacket 26 data 100]) in
    map arrival_time_ (capacity_link_ pipe) = [] /\
    map arrival_time_ (delay_link_ pipe) = [120; 130; 140] /\
    Forall (fun p => 115 < arrival_time_ p) (delay_link_ pipe).
Proof.
  eexists. split; [reflexivity|]. intros data pipe.
  split; [reflexivity|]. split; [reflexivity|].
  refine (proj2 (X7_nothing_due_is_left 3 100 80 0 _ 0
                   [CallSendPacket 0 data 100; CallSendPacket 1 data 100;
                    CallSendPacket 2 data 100; CallNetworkProcess 25;
                    CallSendPacket 26 data 100] 115 eq_refl _ _)).
  - repeat constructor; cbn; lia.
  - cbn. lia.
Defined.

(** ** Back-to-back sends are serialised through the link *)

Lemma sends_schedule cs : forall pipe,
  Forall is_send cs ->
  (length (capacity_link_ pipe) + length cs <= N.to_nat (queue_length_ pipe))%nat ->
  exists new,
    capacity_link_ (run_calls pipe cs) = capacity_link_ pipe ++ new /\
    map arrival_time_ new =
      link_schedule (link_capacity_bytes_ms_ pipe)
        (match rev (capacity_link_ pipe), cs with
         | back :: _, _ => arrival_time_ back
         | [], c :: _ => call_time c
         | [], [] => 0
         end)
        (map call_length cs) /\
    map send_time_ new = map call_time cs /\
    dropped_packets_ (run_calls pipe cs) = dropped_packets_ pipe.
Proof.
  induction cs as [|c cs IH]; intros pipe Hsend Hlen.
  - exists []. cbn. rewrite app_nil_r. auto.
  - apply Forall_cons_iff in Hsend. destruct Hsend as [Hc Hsend].
    destruct c as [t data len|]; [|contradiction].
    cbn [length] in Hlen. cbn [run_calls fold_left run_call].
    change (fold_left run_call cs ?p) with (run_calls p cs).
    rewrite SendPacket_room by lia.
    match goal with
    | |- context [set_capacity_link (_ ++ [?p]) pipe] => set (pkt := p)
    end.
    destruct (IH (set_capacity_link (capacity_link_ pipe ++ [pkt]) pipe) Hsend)
      as (new & Hcap & Harr & Hst & Hdr).
    { cbn. rewrite length_app. cbn. lia. }
    cbn [capacity_link_ link_capacity_bytes_ms_ dropped_packets_
         set_capacity_link] in Hcap, Harr, Hdr.
    rewrite rev_app_distr in Harr. cbn [rev app] in Harr.
    exists (pkt :: new). rewrite Hcap, <- app_assoc. cbn [app map link_schedule
      call_length call_time].
    rewrite Harr, Hst, Hdr.
    repeat split.
Qed.

Lemma busy_schedule B cs : forall start,
  link_busy B start cs ->
  link_schedule B start (map call_length cs) = serial_schedule B start cs.
Proof.
  induction cs as [|c cs IH]; intros start Hbusy; cbn.
  - reflexivity.
  - destruct Hbusy as [Ht Hbusy]. rewrite Z.max_r by assumption.
    now rewrite IH.
Qed.

(** X9: packets of non-negative lengths sent into a newly constructed pipe
    while the link is still busy (each send after the first is made no later
    than the arrival time of the packet queued before it), no more than the
    queue holds and with no [NetworkProcess] in between, are all queued, and
    each is given arrival time [max(now, arrival time of the packet before
    it)] plus its own transmission time
    [data_length / link_capacity_bytes_ms_], with its own clock reading as
    send time. *)
Theorem X9_back_to_back_schedule (K : N) (D C l : Z) (pipe0 : FakeNetworkPipe)
    (t1 : Z) (data1 : list byte) (len1 : Z) (cs : list call) :
  FakeNetworkPipe_new K D C l = Some pipe0 ->
  Forall is_send cs ->
  Forall call_ok (CallSendPacket t1 data1 len1 :: cs) ->
  (length cs < N.to_nat K)%nat ->
  link_busy (link_capacity_bytes_ms_ pipe0)
    (t1 + Z.quot len1 (link_capacity_bytes_ms_ pipe0)) cs ->
  let pipe := run_calls pipe0 (CallSendPacket t1 data1 len1 :: cs) in
  map arrival_time_ (capacity_link_ pipe) =
    serial_schedule (link_capacity_bytes_ms_ pipe0) t1
      (CallSendPacket t1 data1 len1 :: cs) /\
  map send_time_ (capacity_link_ pipe) = t1 :: map call_time cs /\
  dropped_packets_ pipe = 0.
Proof.
  intros Hnew Hsend _ Hlen Hbusy pipe.
  destruct (constructed_fields _ _ _ _ _ Hnew) as [Hp0 _].
  destruct (sends_schedule (CallSendPacket t1 data1 len1 :: cs) pipe0)
    as (new & Hcap & Harr & Hst & Hdr).
  - constructor; [exact I|assumption].
  - rewrite Hp0. cbn. lia.
  - fold pipe in Hcap, Hdr.
    cbn [serial_schedule call_time call_length]. rewrite Z.max_id.
    rewrite <- (busy_schedule _ _ _ Hbusy).
    rewrite Hp0 in Hcap, Harr, Hdr |- *.
    cbn [capacity_link_ link_capacity_bytes_ms_ dropped_packets_ rev app]
      in Hcap, Harr, Hdr |- *.
    rewrite Hcap. auto.
Qed.

Lemma X9_back_to_back_schedule_witness :
  exists pipe0,
    FakeNetworkPipe_new 3 0 80 0 = Some pipe0 /\
    let data := repeat x00 100 in
    let pipe := run_calls pipe0
                  [CallSendPacket 5 data 100; CallSendPacket 6 data 50;
                   CallSendPacket 14 data 25] in
    map arrival_time_ (capacity_link_ pipe) = [15; 20; 22].
Proof.
  eexists. split; [reflexivity|]. intros data pipe.
  destruct (X9_back_to_back_schedule 3 0 80 0 _ 5 data 100
              [CallSendPacket 6 data 50; CallSendPacket 14 data 25] eq_refl)
    as (Harr & _).
  - repeat constructor.
  - repeat constructor; cbn; lia.
  - cbn. lia.
  - cbn. lia.
  - exact Harr.
Defined.

(** ** What no call undoes *)

Lemma run_call_history pipe c :
  let pipe' := run_call pipe c in
  queue_length_ pipe' = queue_length_ pipe /\
  queue_delay_ms_ pipe' = queue_delay_ms_ pipe /\
  link_capacity_bytes_ms_ pipe' = link_capacity_bytes_ms_ pipe /\
  dropped_packets_ pipe <= dropped_packets_ pipe' /\
  exists handed,
    packet_receiver_ pipe' = packet_receiver_ pipe ++ handed /\
    sent_packets_ pipe' = sent_packets_ pipe + Z.of_nat (length handed).
Proof.
  destruct c as [t data len|t]; cbn [run_call]; cbn zeta.
  - destruct (SendPacket_delivery_side t data len pipe)
      as (_ & -> & _ & -> & -> & -> & ->).
    repeat split.
    + unfold SendPacket.
      destruct (queue_length_ pipe <=? N.of_nat (length (capacity_link_ pipe)))%N;
        cbn; lia.
    + exists []. rewrite app_nil_r. split; [reflexivity|cbn; lia].
  - destruct (NetworkProcess_books t pipe) as (-> & -> & -> & -> & _).
    repeat split; try lia.
    destruct (NetworkProcess_spec t pipe)
      as (moved & rest & delivered & waiting & _ & _ & -> & _).
    destruct (deliver_all_fields delivered (set_capacity_link rest pipe))
      as (_ & _ & _ & _ & _ & _ & Fs & Fr & _).
    exists (map payload delivered).
    cbn [packet_receiver_ sent_packets_ set_delay_link].
    rewrite Fs, Fr, length_map. split; reflexivity.
Qed.

(** X10: no sequence of calls changes the configuration of a pipe
    ([queue_length_], [queue_delay_ms_], [link_capacity_bytes_ms_]), lowers
    the drop counter, or takes back a delivery: the receiver's record only
    grows at its end, and [sent_packets_] grows by the number of packets
    handed over. *)
Theorem X10_history_only_grows (pipe : FakeNetworkPipe) (cs : list call) :
  let pipe' := run_calls pipe cs in
  queue_length_ pipe' = queue_length_ pipe /\
  queue_delay_ms_ pipe' = queue_delay_ms_ pipe /\
  link_capacity_bytes_ms_ pipe' = link_capacity_bytes_ms_ pipe /\
  dropped_packets_ pipe <= dropped_packets_ pipe' /\
  exists handed,
    packet_receiver_ pipe' = packet_receiver_ pipe ++ handed /\
    sent_packets_ pipe' = sent_packets_ pipe + Z.of_nat (length handed).
Proof.
  induction cs as [|c cs IH] using rev_ind; cbn zeta.
  - cbn. repeat split; try lia. exists []. rewrite app_nil_r.
    split; [reflexivity|cbn; lia].
  - rewrite run_calls_snoc. cbn zeta in IH.
    destruct IH as (HK & HD & HB & Hdr & handed & Hr & Hs).
    destruct (run_call_history (run_calls pipe cs) c)
      as (HK' & HD' & HB' & Hdr' & handed' & Hr' & Hs').
    rewrite HK', HD', HB', Hr', Hs', Hr, Hs.
    repeat split; try assumption; try lia.
    exists (handed ++ handed'). rewrite app_assoc, length_app.
    split; [reflexivity|lia].
Qed.

(** ** NetworkProcess as a whole *)

(** X11: one [NetworkProcess] call at clock reading [t] moves the longest
    front run of the capacity queue whose arrival times are at most [t] to
    the back of the delay queue, adding [queue_delay_ms_] to each arrival
    time, then hands the receiver the longest front run of the delay queue so
    extended whose arrival times are at most [t]; [sent_packets_] grows by
    the number handed over and [total_packet_delay_] by the sum of their
    [arrival_time - send_time]; the drop counter is untouched. *)
Theorem X11_NetworkProcess_due_prefixes (t : Z) (pipe : FakeNetworkPipe) :
  let pipe' := NetworkProcess t pipe in
  exists moved delivered,
    capacity_link_ pipe = moved ++ capacity_link_ pipe' /\
    delay_link_ pipe ++
      map (IncrementArrivalTime (queue_delay_ms_ pipe)) moved
      = delivered ++ delay_link_ pipe' /\
    Forall (fun p => arrival_time_ p <= t) moved /\
    (forall p rest, capacity_link_ pipe' = p :: rest -> t < arrival_time_ p) /\
    Forall (fun p => arrival_time_ p <= t) delivered /\
    (forall p rest, delay_link_ pipe' = p :: rest -> t < arrival_time_ p) /\
    packet_receiver_ pipe' = packet_receiver_ pipe ++ map payload delivered /\
    sent_packets_ pipe' = sent_packets_ pipe + Z.of_nat (length delivered) /\
    total_packet_delay_ pipe' =
      total_packet_delay_ pipe +
      fold_right Z.add 0
        (map (fun p => arrival_time_ p - send_time_ p) delivered) /\
    dropped_packets_ pipe' = dropped_packets_ pipe.
Proof.
  cbn zeta.
  destruct (NetworkProcess_spec t pipe)
    as (moved & rest & delivered & waiting & Hcap & Hdel & -> & Hm & Hrest
        & Hd & Hwait).
  destruct (deliver_all_fields delivered (set_capacity_link rest pipe))
    as (Fc & _ & _ & _ & _ & Fdr & Fs & Fr & Ft).
  exists moved, delivered.
  cbn [capacity_link_ delay_link_ packet_receiver_ sent_packets_
       total_packet_delay_ dropped_packets_ set_delay_link].
  rewrite Fc, Fdr, Fs, Fr, Ft. cbn. repeat split; assumption.
Qed.

End PipeAccounting.

(** * More on Stats<T>: any order of pushes and reads *)

Section StatsUses.

Import bwe_test_framework.

Context {T : Type} `{Sample T}.

Lemma run_uses_values (us : list (use (T := T))) : forall s : Stats T,
  caches_ok s ->
  exists s',
    run_uses us s = Some (values_after (data_ s) us, s') /\
    data_ s' = data_ s ++ pushed_by us /\ caches_ok s'.
Proof.
  induction us as [|[x|g] us IH]; intros s Hok.
  - exists s. cbn. rewrite app_nil_r. auto.
  - cbn [run_uses values_after pushed_by]. unfold bind.
    destruct (Push_ok x s Hok) as (s1 & -> & Hd1 & Hok1).
    destruct (IH s1 Hok1) as (s2 & -> & Hd2 & Hok2).
    exists s2. rewrite Hd1 in *. rewrite Hd2, <- app_assoc. auto.
  - cbn [run_uses values_after pushed_by]. unfold bind.
    destruct (run_getter_value g s Hok) as (s1 & -> & Hd1 & Hok1).
    destruct (IH s1 Hok1) as (s2 & -> & Hd2 & Hok2).
    exists s2. rewrite Hd1 in *. cbn. auto.
Qed.

(** X12: on a new [Stats<T>], any sequence of [Push], [GetMean],
    [GetVariance], [GetMin] and [GetMax] calls runs without a failed
    assertion, keeps the samples in push order, and makes each getter return
    the mean, variance, minimum or maximum of exactly the samples pushed
    before that call (0 when there is none): no read ever returns the cached
    value of an older sample set. *)
Theorem X12_getters_track_the_samples (us : list (use (T := T))) :
  exists s : Stats T,
    run_uses us Stats_new = Some (values_after [] us, s) /\
    data_ s = pushed_by us.
Proof.
  destruct (run_uses_values us Stats_new Stats_new_ok) as (s & Hrun & Hd & _).
  exists s. split; [exact Hrun|exact Hd].
Qed.

(** ** Reading twice *)

Lemma GetMean_frame (s : Stats T) v s1 :
  GetMean s = Some (v, s1) ->
  data_ s1 = data_ s /\
  last_variance_count_ s1 = last_variance_count_ s /\
  last_mean_count_ s1 = length (data_ s1) /\ v = mean_ s1.
Proof.
  unfold GetMean, bind, gets.
  destruct (last_mean_count_ s =? length (data_ s))%nat eqn:E; cbn [negb when].
  - apply Nat.eqb_eq in E. cbn. intros [= <- <-]. auto.
  - unfold modify, assertion. cbv beta iota.
    cbn [last_mean_count_ set_mean set_last_mean_count data_ mean_].
    destruct (length (data_ s) =? 0)%nat; cbn [negb]; [discriminate|].
    cbv beta iota. intros [= <- <-]. cbn. auto.
Qed.

Lemma GetMean_twice (s : Stats T) v s1 :
  GetMean s = Some (v, s1) -> GetMean s1 = Some (v, s1).
Proof.
  intros Hrun. destruct (GetMean_frame s v s1 Hrun) as (_ & _ & Hm & ->).
  unfold GetMean, bind, gets. apply Nat.eqb_eq in Hm. rewrite Hm. reflexivity.
Qed.

Lemma GetVariance_twice (s : Stats T) v s1 :
  GetVariance s = Some (v, s1) -> GetVariance s1 = Some (v, s1).
Proof.
  unfold GetVariance at 1. unfold bind, gets.
  destruct (last_variance_count_ s =? length (data_ s))%nat eqn:E; cbn [negb when].
  - cbn. intros [= <- <-]. unfold GetVariance, bind, gets. rewrite E. reflexivity.
  - unfold modify at 1. cbv beta iota.
    destruct (GetMean (set_last_variance_count (length (data_ s)) s))
      as [[m s']|] eqn:EG; [|discriminate].
    destruct (GetMean_frame _ _ _ EG) as (Hd & Hv & _).
    cbn [data_ last_variance_count_ set_last_variance_count] in Hd, Hv.
    unfold modify, assertion. cbv beta iota.
    cbn [last_variance_count_ set_variance data_ variance_].
    destruct (last_variance_count_ s' =? 0)%nat; cbn [negb]; [discriminate|].
    cbv beta iota. intros [= <- <-].
    unfold GetVariance, bind, gets.
    cbn [last_variance_count_ set_variance data_ variance_].
    rewrite Hv, Hd, Nat.eqb_refl. reflexivity.
Qed.

Lemma RefreshMinMax_twice (s s1 : Stats T) :
  RefreshMinMax s = Some (tt, s1) -> RefreshMinMax s1 = Some (tt, s1).
Proof.
  unfold RefreshMinMax at 1. unfold bind, gets.
  destruct (last_minmax_count_ s =? length (data_ s))%nat eqn:E; cbn [negb when].
  - cbn. intros [= <-]. unfold RefreshMinMax, bind, gets. rewrite E. reflexivity.
  - unfold modify. cbv beta iota.
    cbn [data_ set_min set_max set_last_minmax_count].
    destruct (data_ s) as [|first rest] eqn:Ed.
    + cbn. intros [= <-]. unfold RefreshMinMax, bind, gets. cbn.
      rewrite Ed. reflexivity.
    + cbv beta iota. rewrite scan_minmax_folds. intros [= <-].
      unfold RefreshMinMax, bind, gets. cbn. rewrite Ed. cbn [length].
      rewrite Nat.eqb_refl. reflexivity.
Qed.

(** X13: a getter called again with no [Push] in between is served from the
    cache: whenever a call of [GetMean], [GetVariance], [GetMin] or [GetMax]
    returns, on any object, the same call repeated at once returns the same
    value and leaves the object exactly as it is. *)
Theorem X13_getter_repeated (g : getter) (s s1 : Stats T) (v : T) :
  run_getter g s = Some (v, s1) -> run_getter g s1 = Some (v, s1).
Proof.
  destruct g; cbn [run_getter].
  - apply GetMean_twice.
  - apply GetVariance_twice.
  - unfold GetMin, bind, gets.
    destruct (RefreshMinMax s) as [[[] s']|] eqn:E; [|discriminate].
    intros [= <- <-]. now rewrite (RefreshMinMax_twice _ _ E).
  - unfold GetMax, bind, gets.
    destruct (RefreshMinMax s) as [[[] s']|] eqn:E; [|discriminate].
    intros [= <- <-]. now rewrite (RefreshMinMax_twice _ _ E).
Qed.

End StatsUses.

(** ** Minimum and maximum under an order *)

Section StatsMinMax.

Import bwe_test_framework.

Context {T : Type} `{Sample T}.

(** [operator<] on the samples is a strict order: nothing is less than
    itself, and less-than chains. *)
Hypothesis less_irrefl : forall x : T, less x x = false.
Hypothesis less_trans :
  forall x y z : T, less x y = true -> less y z = true -> less x z = true.

Lemma fold_std_min (rest : list T) : forall (seen : list T) (first : T),
  In first seen ->
  (forall x, In x seen -> less x first = false) ->
  In (fold_left std_min rest first) (seen ++ rest) /\
  (forall x, In x (seen ++ rest) ->
             less x (fold_left std_min rest first) = false).
Proof.
  induction rest as [|y rest IH]; intros seen first Hin Hmin.
  - cbn. rewrite app_nil_r. auto.
  - cbn [fold_left].
    replace (seen ++ y :: rest) with ((seen ++ [y]) ++ rest)
      by (rewrite <- app_assoc; reflexivity).
    apply IH; unfold std_min.
    + destruct (less y first); apply in_or_app; cbn; auto.
    + intros x Hx. apply in_app_or in Hx.
      destruct (less y first) eqn:E.
      * destruct Hx as [Hx|[<-|[]]]; [|apply less_irrefl].
        destruct (less x y) eqn:Exy; [|reflexivity].
        rewrite <- (Hmin x Hx). symmetry. now apply (less_trans x y first).
      * destruct Hx as [Hx|[<-|[]]]; auto.
Qed.

Lemma fold_std_max (rest : list T) : forall (seen : list T) (first : T),
  In first seen ->
  (forall x, In x seen -> less first x = false) ->
  In (fold_left std_max rest first) (seen ++ rest) /\
  (forall x, In x (seen ++ rest) ->
             less (fold_left std_max rest first) x = false).
Proof.
  induction rest as [|y rest IH]; intros seen first Hin Hmax.
  - cbn. rewrite app_nil_r. auto.
  - cbn [fold_left].
    replace (seen ++ y :: rest) with ((seen ++ [y]) ++ rest)
      by (rewrite <- app_assoc; reflexivity).
    apply IH; unfold std_max.
    + destruct (less first y); apply in_or_app; cbn; auto.
    + intros x Hx. apply in_app_or in Hx.
      destruct (less first y) eqn:E.
      * destruct Hx as [Hx|[<-|[]]]; [|apply less_irrefl].
        destruct (less y x) eqn:Eyx; [|reflexivity].
        rewrite <- (Hmax x Hx). symmetry. now apply (less_trans first y x).
      * destruct Hx as [Hx|[<-|[]]]; auto.
Qed.

(** X14: when [operator<] is a strict order on the samples and at least one
    sample has been pushed, [GetMin()] returns a pushed sample that no sample
    is less than, and [GetMax()] returns a pushed sample that is less than no
    sample. *)
Theorem X14_GetMin_GetMax_are_extremes (xs : list T) :
  xs <> [] ->
  exists (lo hi : T) (s : Stats T),
    one_batch xs [CallGetMin; CallGetMax] Stats_new = Some ([lo; hi], s) /\
    In lo xs /\ In hi xs /\
    (forall x, In x xs -> less x lo = false /\ less hi x = false).
Proof.
  intros Hne. unfold one_batch, bind.
  destruct (push_all_ok xs Stats_new Stats_new_ok) as (a & -> & Hda & Hoka).
  destruct (run_getters_values [CallGetMin; CallGetMax] a Hoka)
    as (b & -> & _ & _).
  cbn [data_ Stats_new app] in Hda. rewrite Hda. cbn [map value_of].
  exists (min_of xs), (max_of xs), b. split; [reflexivity|].
  destruct xs as [|first rest]; [congruence|]. cbn [min_of max_of].
  destruct (fold_std_min rest [first] first) as [Hlo1 Hlo2];
    [left; reflexivity | intros x [<-|[]]; apply less_irrefl |].
  destruct (fold_std_max rest [first] first) as [Hhi1 Hhi2];
    [left; reflexivity | intros x [<-|[]]; apply less_irrefl |].
  cbn [app] in *. repeat split; auto.
Qed.

End StatsMinMax.

(** ** Stats<int> again *)

Section StatsUsesExamples.

Import bwe_test_framework.

(** Samples 4, 1, 3: the minimum is 1 and the maximum 4. *)
Lemma X14_GetMin_GetMax_are_extremes_witness :
  exists lo hi s,
    one_batch [4; 1; 3]%Z [CallGetMin; CallGetMax] Stats_new
      = Some ([lo; hi], s) /\
    In lo [4; 1; 3]%Z /\ In hi [4; 1; 3]%Z /\
    (forall x, In x [4; 1; 3]%Z -> less x lo = false /\ less hi x = false).
Proof.
  apply (X14_GetMin_GetMax_are_extremes (T := Z)).
  - exact Z.ltb_irrefl.
  - intros x y z Hxy Hyz. apply Z.ltb_lt in Hxy, Hyz. apply Z.ltb_lt. lia.
  - discriminate.
Defined.

(** After the samples 1, 2, 3 and 6, [GetVariance()] returns 3 twice, and the
    second call finds the object as the first left it. *)
Lemma X13_getter_repeated_witness :
  exists s s1 : Stats Z,
    push_all [1; 2; 3; 6]%Z Stats_new = Some (tt, s) /\
    run_getter CallGetVariance s = Some (3%Z, s1) /\
    run_getter CallGetVariance s1 = Some (3%Z, s1).
Proof.
  eexists. eexists. split; [reflexivity|].
  assert (forall (s s1 : Stats Z) (v : Z) (E : run_getter CallGetVariance s = Some (v, s1)),
            run_getter CallGetVariance s = Some (v, s1) /\
            run_getter CallGetVariance s1 = Some (v, s1)) as Hboth.
  { intros s s1 v E. split; [exact E|].
    exact (X13_getter_repeated CallGetVariance s s1 v E). }
  apply Hboth. reflexivity.
Defined.

End StatsUsesExamples.

(** * Properties of the vector scans of min_max_operations.c *)

Section MinMaxScans.

Import min_max_operations.
Local Open Scope Z_scope.

(** ** Loops and their invariants *)

Lemma for_loop_invariant {St : Type} (P : Z -> St -> Prop)
    (body : Z -> St -> St) (n : nat) : forall (i : Z) (s : St),
  P i s ->
  (forall k s', i <= k < i + Z.of_nat n -> P k s' -> P (k + 1) (body k s')) ->
  P (i + Z.of_nat n) (for_loop n i body s).
Proof.
  induction n as [|n IH]; intros i s Hs Hstep.
  - cbn. now rewrite Z.add_0_r.
  - cbn [for_loop]. replace (i + Z.of_nat (S n)) with (i + 1 + Z.of_nat n) by lia.
    apply IH.
    + apply Hstep; [lia|assumption].
    + intros k s' Hk. apply Hstep. lia.
Qed.

Lemma scan_value_is_fst (better : Z -> Z -> bool) (read : Z -> Z) (n : nat) :
  forall i best index,
    for_loop n i (scan_value better read) best =
    fst (for_loop n i (scan_index better read) (best, index)).
Proof.
  induction n as [|n IH]; intros i best index; cbn [for_loop].
  - reflexivity.
  - unfold scan_value at 2, scan_index at 2. cbn [fst].
    destruct (better (read i) best); apply IH.
Qed.

Section Order.

(** [better x y]: the loop replaces its best value [y] by [x].  It is a
    strict total order, [>] or [<] below. *)
Variable better : Z -> Z -> bool.
Hypothesis better_irrefl : forall x, better x x = false.
Hypothesis better_trans :
  forall x y z, better x y = true -> better y z = true -> better x z = true.
Hypothesis better_total :
  forall x y, better x y = false -> better y x = false -> x = y.

Variable read : Z -> Z.

Lemma scan_index_spec (init n : Z) :
  0 < n ->
  (forall j, 0 <= j < n -> better init (read j) = false) ->
  let st := for_loop (Z.to_nat n) 0 (scan_index better read) (init, 0) in
  0 <= snd st < n /\
  fst st = read (snd st) /\
  (forall j, 0 <= j < n -> better (read j) (fst st) = false) /\
  (forall j, 0 <= j < snd st -> better (fst st) (read j) = true).
Proof.
  intros Hn Hinit st.
  set (P := fun (i : Z) (s : Z * Z) =>
    (forall j, 0 <= j < i -> better (read j) (fst s) = false) /\
    (forall j, 0 <= j < snd s -> better (fst s) (read j) = true) /\
    0 <= snd s /\
    ((i = 0 /\ s = (init, 0)) \/ (snd s < i /\ fst s = read (snd s)))).
  assert (P (0 + Z.of_nat (Z.to_nat n)) st) as HP.
  { apply for_loop_invariant.
    - unfold P. cbn. repeat split; try lia; auto.
    - intros k [best index] Hk (Hle & Hlt & Hidx & Hcase).
      rewrite Z2Nat.id in Hk by lia. cbn [fst snd] in *.
      unfold P, scan_index. cbn [fst snd].
      destruct (better (read k) best) eqn:E; cbn [fst snd].
      + split; [|split; [|split; [lia|]]].
        * intros j Hj. destruct (Z.eq_dec j k) as [->|Hjk];
            [apply better_irrefl|].
          destruct (better (read j) (read k)) eqn:Ej; [|reflexivity].
          rewrite <- (Hle j) by lia. symmetry.
          now apply (better_trans _ (read k)).
        * intros j Hj.
          destruct (better best (read j)) eqn:Eb.
          { now apply (better_trans _ best). }
          rewrite (better_total best (read j) Eb) in E by (apply Hle; lia).
          exact E.
        * right. split; [lia|reflexivity].
      + split; [|split; [assumption|split; [lia|]]].
        * intros j Hj. destruct (Z.eq_dec j k) as [->|Hjk]; [exact E|].
          apply Hle. lia.
        * right. destruct Hcase as [[-> [= -> ->]]|[Hlt' Heq]].
          -- split; [lia|]. apply better_total; [|exact E].
             apply Hinit. lia.
          -- split; [lia|assumption]. }
  rewrite Z2Nat.id in HP by lia. cbn in HP.
  destruct HP as (Hle & Hlt & Hidx & [[Hz _]|[Hlt' Heq]]); [lia|].
  repeat split; auto.
Qed.

End Order.

(** ** The two comparisons of the file *)

Lemma scan_index_range (better : Z -> Z -> bool) (read : Z -> Z) (init n : Z) :
  0 < n ->
  0 <= snd (for_loop (Z.to_nat n) 0 (scan_index better read) (init, 0)) < n.
Proof.
  intros Hn.
  set (P := fun (i : Z) (s : Z * Z) =>
              0 <= snd s /\ (snd s < i \/ (i = 0 /\ snd s = 0))).
  assert (P (0 + Z.of_nat (Z.to_nat n))
            (for_loop (Z.to_nat n) 0 (scan_index better read) (init, 0))) as HP.
  { apply for_loop_invariant.
    - unfold P. cbn. lia.
    - intros k [best index] Hk [H0 Hcase]. unfold P, scan_index in *.
      cbn [fst snd] in *. destruct (better (read k) best); cbn [snd]; lia. }
  rewrite Z2Nat.id in HP by lia. unfold P in HP. lia.
Qed.

Lemma max_scan (read : Z -> Z) (init n : Z) :
  0 < n ->
  (forall j, 0 <= j < n -> init <= read j) ->
  let st := for_loop (Z.to_nat n) 0 (scan_index Z.gtb read) (init, 0) in
  0 <= snd st < n /\
  fst st = read (snd st) /\
  (forall j, 0 <= j < n -> read j <= read (snd st)) /\
  (forall j, 0 <= j < snd st -> read j < read (snd st)).
Proof.
  intros Hn Hinit st.
  destruct (scan_index_spec Z.gtb) with (read := read) (init := init) (n := n)
    as (Hr & Hf & Hle & Hlt); try assumption.
  - intros x. rewrite Z.gtb_ltb. apply Z.ltb_irrefl.
  - intros x y z. rewrite !Z.gtb_ltb, !Z.ltb_lt. lia.
  - intros x y. rewrite !Z.gtb_ltb, !Z.ltb_ge. lia.
  - intros j Hj. rewrite Z.gtb_ltb, Z.ltb_ge. auto.
  - fold st in Hr, Hf, Hle, Hlt. rewrite Hf in Hle, Hlt.
    repeat split; try lia; try assumption.
    + intros j Hj. specialize (Hle j Hj).
      rewrite Z.gtb_ltb, Z.ltb_ge in Hle. exact Hle.
    + intros j Hj. specialize (Hlt j Hj).
      rewrite Z.gtb_ltb, Z.ltb_lt in Hlt. exact Hlt.
Qed.

Lemma min_scan (read : Z -> Z) (init n : Z) :
  0 < n ->
  (forall j, 0 <= j < n -> read j <= init) ->
  let st := for_loop (Z.to_nat n) 0 (scan_index Z.ltb read) (init, 0) in
  0 <= snd st < n /\
  fst st = read (snd st) /\
  (forall j, 0 <= j < n -> read (snd st) <= read j) /\
  (forall j, 0 <= j < snd st -> read (snd st) < read j).
Proof.
  intros Hn Hinit st.
  destruct (scan_index_spec Z.ltb) with (read := read) (init := init) (n := n)
    as (Hr & Hf & Hle & Hlt); try assumption.
  - apply Z.ltb_irrefl.
  - intros x y z. rewrite !Z.ltb_lt. lia.
  - intros x y. rewrite !Z.ltb_ge. lia.
  - intros j Hj. rewrite Z.ltb_ge. auto.
  - fold st in Hr, Hf, Hle, Hlt. rewrite Hf in Hle, Hlt.
    repeat split; try lia; try assumption.
    + intros j Hj. specialize (Hle j Hj). rewrite Z.ltb_ge in Hle. exact Hle.
    + intros j Hj. specialize (Hlt j Hj). rewrite Z.ltb_lt in Hlt. exact Hlt.
Qed.

(** The index functions on a non-null vector and a positive length. *)
Lemma MaxIndex_scan lowest v n :
  0 < n ->
  WebRtcSpl_MaxIndexW16 lowest (Some v) n =
    snd (for_loop (Z.to_nat n) 0 (scan_index Z.gtb (elem v)) (lowest, 0)) /\
  WebRtcSpl_MaxIndexW32 lowest (Some v) n =
    snd (for_loop (Z.to_nat n) 0 (scan_index Z.gtb (elem v)) (lowest, 0)) /\
  WebRtcSpl_MaxValueW16 lowest (Some v) n =
    fst (for_loop (Z.to_nat n) 0 (scan_index Z.gtb (elem v)) (lowest, 0)) /\
  WebRtcSpl_MaxValueW32 lowest (Some v) n =
    fst (for_loop (Z.to_nat n) 0 (scan_index Z.gtb (elem v)) (lowest, 0)).
Proof.
  intros Hn.
  unfold WebRtcSpl_MaxIndexW16, WebRtcSpl_MaxIndexW32, WebRtcSpl_MaxValueW16,
    WebRtcSpl_MaxValueW32.
  assert ((n <=? 0) = false) as -> by (apply Z.leb_gt; lia).
  rewrite <- (scan_value_is_fst Z.gtb (elem v) _ 0 lowest 0).
  repeat split.
Qed.

Lemma MinIndex_scan highest v n :
  0 < n ->
  WebRtcSpl_MinIndexW16 highest (Some v) n =
    snd (for_loop (Z.to_nat n) 0 (scan_index Z.ltb (elem v)) (highest, 0)) /\
  WebRtcSpl_MinIndexW32 highest (Some v) n =
    snd (for_loop (Z.to_nat n) 0 (scan_index Z.ltb (elem v)) (highest, 0)) /\
  WebRtcSpl_MinValueW16 highest (Some v) n =
    fst (for_loop (Z.to_nat n) 0 (scan_index Z.ltb (elem v)) (highest, 0)) /\
  WebRtcSpl_MinValueW32 highest (Some v) n =
    fst (for_loop (Z.to_nat n) 0 (scan_index Z.ltb (elem v)) (highest, 0)).
Proof.
  intros Hn.
  unfold WebRtcSpl_MinIndexW16, WebRtcSpl_MinIndexW32, WebRtcSpl_MinValueW16,
    WebRtcSpl_MinValueW32.
  assert ((n <=? 0) = false) as -> by (apply Z.leb_gt; lia).
  rewrite <- (scan_value_is_fst Z.ltb (elem v) _ 0 highest 0).
  repeat split.
Qed.

Lemma MaxAbs_scan highest v n :
  0 < n ->
  WebRtcSpl_MaxAbsIndexW16 (Some v) n =
    snd (for_loop (Z.to_nat n) 0
           (scan_index Z.gtb (fun i => Z.abs (elem v i))) (0, 0)) /\
  WebRtcSpl_MaxAbsValueW16 highest (Some v) n =
    let maximum :=
      fst (for_loop (Z.to_nat n) 0
             (scan_index Z.gtb (fun i => Z.abs (elem v i))) (0, 0)) in
    int16_of_int (if maximum >? highest then highest else maximum).
Proof.
  intros Hn. unfold WebRtcSpl_MaxAbsIndexW16, WebRtcSpl_MaxAbsValueW16.
  assert ((n <=? 0) = false) as -> by (apply Z.leb_gt; lia).
  cbn zeta.
  rewrite <- (scan_value_is_fst Z.gtb (fun i => Z.abs (elem v i)) _ 0 0 0).
  repeat split.
Qed.

(** ** What the scans return *)

Lemma elem_in_firstn (v : list Z) (len j : Z) :
  0 <= j < len -> len <= Z.of_nat (List.length v) ->
  In (elem v j) (firstn (Z.to_nat len) v).
Proof.
  intros Hj Hlen. unfold elem.
  rewrite <- (firstn_skipn (Z.to_nat len) v) at 1.
  assert (List.length (firstn (Z.to_nat len) v) = Z.to_nat len) as Hl
    by (rewrite length_firstn; lia).
  rewrite app_nth1 by lia. apply nth_In. lia.
Qed.

Lemma nth_firstn_elem (v : list Z) (len : Z) (k : nat) :
  (k < Z.to_nat len)%nat -> len <= Z.of_nat (List.length v) ->
  nth k (firstn (Z.to_nat len) v) 0 = elem v (Z.of_nat k).
Proof.
  intros Hk Hlen. unfold elem. rewrite Nat2Z.id.
  rewrite <- (firstn_skipn (Z.to_nat len) v) at 2.
  rewrite app_nth1 by (rewrite length_firstn; lia). reflexivity.
Qed.

Lemma int16_of_int_small (x : Z) :
  -32768 <= x <= 32767 -> int16_of_int x = x.
Proof. intros Hx. unfold int16_of_int. rewrite Z.mod_small; lia. Qed.

(** X15: for a non-null vector, a positive [length] within the array and
    elements not below the initial [maximum] (the macro
    [WEBRTC_SPL_WORD16_MIN], resp. [WEBRTC_SPL_WORD32_MIN]),
    [WebRtcSpl_MaxIndexW16] and [WebRtcSpl_MaxIndexW32] return the index of
    the first greatest element among the first [length]: a valid index, no
    element is greater than the one there, and every earlier one is smaller. *)
Theorem X15_MaxIndex_first_maximum (lowest : Z) (v : list Z) (len index : Z) :
  0 < len <= Z.of_nat (List.length v) ->
  Forall (fun x => lowest <= x) (firstn (Z.to_nat len) v) ->
  index = WebRtcSpl_MaxIndexW16 lowest (Some v) len \/
  index = WebRtcSpl_MaxIndexW32 lowest (Some v) len ->
  0 <= index < len /\
  (forall j, 0 <= j < len -> elem v j <= elem v index) /\
  (forall j, 0 <= j < index -> elem v j < elem v index).
Proof.
  intros [Hpos Hlen] Hlow Hidx.
  destruct (MaxIndex_scan lowest v len Hpos) as (E16 & E32 & _).
  assert (index = snd (for_loop (Z.to_nat len) 0 (scan_index Z.gtb (elem v))
                         (lowest, 0))) as -> by (destruct Hidx; congruence).
  destruct (max_scan (elem v) lowest len Hpos) as (Hr & _ & Hle & Hlt).
  - intros j Hj. rewrite Forall_forall in Hlow. apply Hlow.
    now apply elem_in_firstn.
  - auto.
Qed.

Lemma X15_MaxIndex_first_maximum_witness :
  let v := [3; -5; 7; 7; 2] in
  let index := WebRtcSpl_MaxIndexW16 (-32768) (Some v) 5 in
  index = 2 /\
  0 <= index < 5 /\
  (forall j, 0 <= j < 5 -> elem v j <= elem v index) /\
  (forall j, 0 <= j < index -> elem v j < elem v index).
Proof.
  intros v index. split; [reflexivity|].
  apply (X15_MaxIndex_first_maximum (-32768) v 5 index).
  - cbn. lia.
  - repeat constructor; lia.
  - left. reflexivity.
Defined.

(** X16: under the same conditions with elements not above the initial
    [minimum] ([WEBRTC_SPL_WORD16_MAX], resp. [WEBRTC_SPL_WORD32_MAX]),
    [WebRtcSpl_MinIndexW16] and [WebRtcSpl_MinIndexW32] return the index of
    the first least element among the first [length]. *)
Theorem X16_MinIndex_first_minimum (highest : Z) (v : list Z) (len index : Z) :
  0 < len <= Z.of_nat (List.length v) ->
  Forall (fun x => x <= highest) (firstn (Z.to_nat len) v) ->
  index = WebRtcSpl_MinIndexW16 highest (Some v) len \/
  index = WebRtcSpl_MinIndexW32 highest (Some v) len ->
  0 <= index < len /\
  (forall j, 0 <= j < len -> elem v index <= elem v j) /\
  (forall j, 0 <= j < index -> elem v index < elem v j).
Proof.
  intros [Hpos Hlen] Hhigh Hidx.
  destruct (MinIndex_scan highest v len Hpos) as (E16 & E32 & _).
  assert (index = snd (for_loop (Z.to_nat len) 0 (scan_index Z.ltb (elem v))
                         (highest, 0))) as -> by (destruct Hidx; congruence).
  destruct (min_scan (elem v) highest len Hpos) as (Hr & _ & Hle & Hlt).
  - intros j Hj. rewrite Forall_forall in Hhigh. apply Hhigh.
    now apply elem_in_firstn.
  - auto.
Qed.

Lemma X16_MinIndex_first_minimum_witness :
  let v := [3; -5; 7; -5; 2] in
  let index := WebRtcSpl_MinIndexW32 2147483647 (Some v) 5 in
  index = 1 /\
  0 <= index < 5 /\
  (forall j, 0 <= j < 5 -> elem v index <= elem v j) /\
  (forall j, 0 <= j < index -> elem v index < elem v j).
Proof.
  intros v index. split; [reflexivity|].
  apply (X16_MinIndex_first_minimum 2147483647 v 5 index).
  - cbn. lia.
  - repeat constructor; lia.
  - right. reflexivity.
Defined.

(** X17: under the conditions of X15, [WebRtcSpl_MaxValueW16] and
    [WebRtcSpl_MaxValueW32] return the greatest of the first [length]
    elements, which is the element at the index the matching index function
    returns. *)
Theorem X17_MaxValue_is_greatest (lowest : Z) (v : list Z) (len value : Z) :
  0 < len <= Z.of_nat (List.length v) ->
  Forall (fun x => lowest <= x) (firstn (Z.to_nat len) v) ->
  value = WebRtcSpl_MaxValueW16 lowest (Some v) len \/
  value = WebRtcSpl_MaxValueW32 lowest (Some v) len ->
  value = elem v (WebRtcSpl_MaxIndexW16 lowest (Some v) len) /\
  value = elem v (WebRtcSpl_MaxIndexW32 lowest (Some v) len) /\
  In value (firstn (Z.to_nat len) v) /\
  Forall (fun x => x <= value) (firstn (Z.to_nat len) v).
Proof.
  intros [Hpos Hlen] Hlow Hval.
  destruct (MaxIndex_scan lowest v len Hpos) as (E16 & E32 & V16 & V32).
  rewrite E16, E32.
  assert (value = fst (for_loop (Z.to_nat len) 0 (scan_index Z.gtb (elem v))
                         (lowest, 0))) as -> by (destruct Hval; congruence).
  destruct (max_scan (elem v) lowest len Hpos) as (Hr & Hf & Hle & _).
  { intros j Hj. rewrite Forall_forall in Hlow. apply Hlow.
    now apply elem_in_firstn. }
  rewrite Hf. repeat split.
  - now apply elem_in_firstn.
  - apply Forall_forall. intros x Hx.
    apply (In_nth _ _ 0) in Hx. destruct Hx as (k & Hk & <-).
    rewrite length_firstn in Hk.
    rewrite nth_firstn_elem by lia. apply Hle. lia.
Qed.

Lemma X17_MaxValue_is_greatest_witness :
  let v := [3; -5; 7; 7; 2] in
  let value := WebRtcSpl_MaxValueW16 (-32768) (Some v) 4 in
  value = 7 /\
  value = elem v (WebRtcSpl_MaxIndexW16 (-32768) (Some v) 4) /\
  Forall (fun x => x <= value) [3; -5; 7; 7].
Proof.
  intros v value. split; [reflexivity|].
  destruct (X17_MaxValue_is_greatest (-32768) v 4 value) as (H1 & _ & _ & H4).
  - cbn. lia.
  - repeat constructor; lia.
  - left. reflexivity.
  - split; [exact H1 | exact H4].
Defined.

(** X18: under the conditions of X16, [WebRtcSpl_MinValueW16] and
    [WebRtcSpl_MinValueW32] return the least of the first [length] elements,
    which is the element at the index the matching index function returns. *)
Theorem X18_MinValue_is_least (highest : Z) (v : list Z) (len value : Z) :
  0 < len <= Z.of_nat (List.length v) ->
  Forall (fun x => x <= highest) (firstn (Z.to_nat len) v) ->
  value = WebRtcSpl_MinValueW16 highest (Some v) len \/
  value = WebRtcSpl_MinValueW32 highest (Some v) len ->
  value = elem v (WebRtcSpl_MinIndexW16 highest (Some v) len) /\
  value = elem v (WebRtcSpl_MinIndexW32 highest (Some v) len) /\
  In value (firstn (Z.to_nat len) v) /\
  Forall (fun x => value <= x) (firstn (Z.to_nat len) v).
Proof.
  intros [Hpos Hlen] Hhigh Hval.
  destruct (MinIndex_scan highest v len Hpos) as (E16 & E32 & V16 & V32).
  rewrite E16, E32.
  assert (value = fst (for_loop (Z.to_nat len) 0 (scan_index Z.ltb (elem v))
                         (highest, 0))) as -> by (destruct Hval; congruence).
  destruct (min_scan (elem v) highest len Hpos) as (Hr & Hf & Hle & _).
  { intros j Hj. rewrite Forall_forall in Hhigh. apply Hhigh.
    now apply elem_in_firstn. }
  rewrite Hf. repeat split.
  - now apply elem_in_firstn.
  - apply Forall_forall. intros x Hx.
    apply (In_nth _ _ 0) in Hx. destruct Hx as (k & Hk & <-).
    rewrite length_firstn in Hk.
    rewrite nth_firstn_elem by lia. apply Hle. lia.
Qed.

Lemma X18_MinValue_is_least_witness :
  let v := [3; -5; 7; -9; 2] in
  let value := WebRtcSpl_MinValueW16 32767 (Some v) 3 in
  value = -5 /\
  value = elem v (WebRtcSpl_MinIndexW16 32767 (Some v) 3) /\
  Forall (fun x => value <= x) [3; -5; 7].
Proof.
  intros v value. split; [reflexivity|].
  destruct (X18_MinValue_is_least 32767 v 3 value) as (H1 & _ & _ & H4).
  - cbn. lia.
  - repeat constructor; lia.
  - left. reflexivity.
  - split; [exact H1 | exact H4].
Defined.

(** X19: with [WEBRTC_SPL_WORD16_MAX] equal to 32767, a non-null vector and
    a positive [length] within the array, [WebRtcSpl_MaxAbsValueW16] returns
    the greatest absolute value among the first [length] elements, saturated
    at 32767: a value between 0 and 32767 that equals [min(|x|, 32767)] for
    the element at the index [WebRtcSpl_MaxAbsIndexW16] returns and is at
    least [min(|x|, 32767)] for every element. *)
Theorem X19_MaxAbsValueW16_saturates (highest : Z) (v : list Z) (len : Z) :
  highest = 32767 ->
  0 < len <= Z.of_nat (List.length v) ->
  let value := WebRtcSpl_MaxAbsValueW16 highest (Some v) len in
  0 <= value <= 32767 /\
  value =
    Z.min (Z.abs (elem v (WebRtcSpl_MaxAbsIndexW16 (Some v) len))) 32767 /\
  Forall (fun x => Z.min (Z.abs x) 32767 <= value) (firstn (Z.to_nat len) v).
Proof.
  intros -> [Hpos Hlen] value.
  destruct (MaxAbs_scan 32767 v len Hpos) as (Eidx & Eval).
  unfold value. rewrite Eval, Eidx. cbn zeta.
  destruct (max_scan (fun i => Z.abs (elem v i)) 0 len Hpos)
    as (Hr & Hf & Hle & _).
  { intros j _. apply Z.abs_nonneg. }
  cbn beta in Hf, Hle. rewrite Hf.
  set (index := snd (for_loop (Z.to_nat len) 0
                       (scan_index Z.gtb (fun i => Z.abs (elem v i))) (0, 0)))
    in *.
  pose proof (Z.abs_nonneg (elem v index)) as Hnn.
  assert (int16_of_int
            (if Z.abs (elem v index) >? 32767 then 32767
             else Z.abs (elem v index)) =
          Z.min (Z.abs (elem v index)) 32767) as ->.
  { destruct (Z.abs (elem v index) >? 32767) eqn:E.
    - apply Z.gtb_lt in E. rewrite int16_of_int_small by lia. lia.
    - rewrite Z.gtb_ltb in E. apply Z.ltb_ge in E.
      rewrite int16_of_int_small by lia. lia. }
  repeat split; try lia.
  apply Forall_forall. intros x Hx.
  apply (In_nth _ _ 0) in Hx. destruct Hx as (k & Hk & <-).
  rewrite length_firstn in Hk. rewrite nth_firstn_elem by lia.
  specialize (Hle (Z.of_nat k) ltac:(lia)). lia.
Qed.

Lemma X19_MaxAbsValueW16_saturates_witness :
  WebRtcSpl_MaxAbsValueW16 32767 (Some [3; -32768; 7]) 3 = 32767 /\
  WebRtcSpl_MaxAbsValueW16 32767 (Some [3; -5; 4]) 3 = 5 /\
  Forall (fun x => Z.min (Z.abs x) 32767 <=
                   WebRtcSpl_MaxAbsValueW16 32767 (Some [3; -32768; 7]) 3)
    [3; -32768; 7].
Proof.
  split; [reflexivity|]. split; [reflexivity|].
  destruct (X19_MaxAbsValueW16_saturates 32767 [3; -32768; 7] 3 eq_refl)
    as (_ & _ & H).
  - cbn. lia.
  - exact H.
Defined.

(** X20: for a non-null vector and a positive [length] within the array,
    [WebRtcSpl_MaxAbsIndexW16] returns the index of the first element of
    greatest absolute value among the first [length]. *)
Theorem X20_MaxAbsIndexW16_first_greatest (v : list Z) (len : Z) :
  0 < len <= Z.of_nat (List.length v) ->
  let index := WebRtcSpl_MaxAbsIndexW16 (Some v) len in
  0 <= index < len /\
  (forall j, 0 <= j < len -> Z.abs (elem v j) <= Z.abs (elem v index)) /\
  (forall j, 0 <= j < index -> Z.abs (elem v j) < Z.abs (elem v index)).
Proof.
  intros [Hpos Hlen] index.
  destruct (MaxAbs_scan 0 v len Hpos) as (Eidx & _).
  unfold index. rewrite Eidx.
  destruct (max_scan (fun i => Z.abs (elem v i)) 0 len Hpos)
    as (Hr & _ & Hle & Hlt).
  { intros j _. apply Z.abs_nonneg. }
  auto.
Qed.

Lemma X20_MaxAbsIndexW16_first_greatest_witness :
  let v := [3; -7; 7; 2] in
  let index := WebRtcSpl_MaxAbsIndexW16 (Some v) 4 in
  index = 1 /\
  (forall j, 0 <= j < 4 -> Z.abs (elem v j) <= Z.abs (elem v index)).
Proof.
  intros v index. split; [reflexivity|].
  destruct (X20_MaxAbsIndexW16_first_greatest v 4) as (_ & H & _).
  - cbn. lia.
  - exact H.
Defined.

(** X21: the five index functions return -1 exactly when the vector is null
    or [length] is not positive; on any other input the result is an index
    from 0 to [length - 1]. *)
Theorem X21_index_error_value (lowest highest : Z) (vector : option (list Z))
    (len : Z) :
  let rejected := vector = None \/ len <= 0 in
  let valid index := (index = -1 <-> rejected) /\
                     (~ rejected -> 0 <= index < len) in
  valid (WebRtcSpl_MaxAbsIndexW16 vector len) /\
  valid (WebRtcSpl_MaxIndexW16 lowest vector len) /\
  valid (WebRtcSpl_MaxIndexW32 lowest vector len) /\
  valid (WebRtcSpl_MinIndexW16 highest vector len) /\
  valid (WebRtcSpl_MinIndexW32 highest vector len).
Proof.
  cbn zeta. destruct vector as [v|].
  - destruct (Z_le_gt_dec len 0) as [Hle|Hgt].
    + unfold WebRtcSpl_MaxAbsIndexW16, WebRtcSpl_MaxIndexW16,
        WebRtcSpl_MaxIndexW32, WebRtcSpl_MinIndexW16, WebRtcSpl_MinIndexW32.
      apply Z.leb_le in Hle. rewrite Hle. apply Z.leb_le in Hle.
      repeat split; auto; exfalso; tauto.
    + assert (0 < len) as Hpos by lia.
      destruct (MaxAbs_scan 0 v len Hpos) as (-> & _).
      destruct (MaxIndex_scan lowest v len Hpos) as (-> & -> & _).
      destruct (MinIndex_scan highest v len Hpos) as (-> & -> & _).
      pose proof (scan_index_range Z.gtb (fun i => Z.abs (elem v i)) 0 len Hpos).
      pose proof (scan_index_range Z.gtb (elem v) lowest len Hpos).
      pose proof (scan_index_range Z.ltb (elem v) highest len Hpos).
      repeat split; try lia; try (intros [[=]|]; lia).
  - cbn. repeat split; auto; exfalso; tauto.
Qed.

End MinMaxScans.
